(** * Spyder shell for Jupyter kernels: namespace stack, interrupt policy,
      traceback filtering and input cleanup

    Shallow embedding of [spyder_kernels/console/shell.py] (class
    [SpyderShell]).  Python objects live in a heap indexed by object
    identity; the shell's own attributes are the fields of a record that
    every method takes and returns.  Methods that may raise return a
    [result]. *)

From Stdlib Require Import ZArith Ascii String List Bool Lia.
From stdpp Require Import base option list strings gmap.

Local Open Scope string_scope.
Local Open Scope list_scope.

(** ** Python values and objects *)

(** Identity of a Python object ([id(obj)]). *)
Definition ref := nat.

(** Values stored in dictionaries and in the debugger configuration. *)
Inductive value :=
  | VNone
  | VBool (b : bool)
  | VInt (n : Z)
  | VStr (s : string)
  | VRef (r : ref).

(** A Python dictionary with string keys (a namespace, a configuration). *)
Abbreviation dict := (gmap string value).

(** An execution frame.  The code under study reads [f_globals] and
    [f_locals] and compares frames by identity; [f_id] is that identity. *)
Record frame := mkFrame {
  f_id : nat;
  f_globals : ref;
  f_locals : ref
}.

Global Instance frame_eq_dec : EqDecision frame.
Proof. solve_decision. Defined.

(** The attributes of a debugger session that the shell reads or writes.
    [attrs] holds the attributes written with [setattr]. *)
Record SpyderPdb := mkPdb {
  curframe : option frame;
  curframe_locals : option ref;
  interrupting : bool;
  allow_kbdint : bool;
  attrs : dict
}.

Record NamespaceManager := mkNsm {
  ns_globals : ref;
  ns_locals : option ref
}.

Inductive obj :=
  | OPdb (p : SpyderPdb)
  | ONsm (m : NamespaceManager)
  | ODict (d : dict)
  | OOther.

(** Exceptions that the methods below can raise. *)
Inductive exn :=
  | KeyboardInterrupt
  | IndexError
  | AttributeError
  | TypeError
  | OtherError (name : string).

Inductive result (A : Type) :=
  | Ok (a : A)
  | Raise (e : exn).
Arguments Ok {A} a.
Arguments Raise {A} e.

(** Calls into the external collaborators (debugger, host shell), in the
    order in which they are made. *)
Inductive call :=
  | CallSpyderPdb (d : ref)
  | CallInterrupt (d : ref)
  | CallSetTrace (d : ref) (fr : option frame)
  | CallShowTraceback.

(** ** The shell *)

Record SpyderShell := mkShell {
  _namespace_stack : list ref;
  _request_pdb_stop : bool;
  _pdb_conf : dict;
  _allow_kbdint : bool;
  _SpyderShell__user_ns : ref;
  magics_line : dict;
  magics_cell : dict;
  heap : gmap ref obj;
  logged : list string;
  calls : list call
}.

Definition with_stack (s : SpyderShell) (st : list ref) : SpyderShell :=
  mkShell st (_request_pdb_stop s) (_pdb_conf s) (_allow_kbdint s)
    (_SpyderShell__user_ns s) (magics_line s) (magics_cell s) (heap s)
    (logged s) (calls s).

Definition with_request_pdb_stop (s : SpyderShell) (b : bool) : SpyderShell :=
  mkShell (_namespace_stack s) b (_pdb_conf s) (_allow_kbdint s)
    (_SpyderShell__user_ns s) (magics_line s) (magics_cell s) (heap s)
    (logged s) (calls s).

Definition with_pdb_conf (s : SpyderShell) (c : dict) : SpyderShell :=
  mkShell (_namespace_stack s) (_request_pdb_stop s) c (_allow_kbdint s)
    (_SpyderShell__user_ns s) (magics_line s) (magics_cell s) (heap s)
    (logged s) (calls s).

Definition with_allow_kbdint (s : SpyderShell) (b : bool) : SpyderShell :=
  mkShell (_namespace_stack s) (_request_pdb_stop s) (_pdb_conf s) b
    (_SpyderShell__user_ns s) (magics_line s) (magics_cell s) (heap s)
    (logged s) (calls s).

Definition with_heap (s : SpyderShell) (h : gmap ref obj) : SpyderShell :=
  mkShell (_namespace_stack s) (_request_pdb_stop s) (_pdb_conf s)
    (_allow_kbdint s) (_SpyderShell__user_ns s) (magics_line s)
    (magics_cell s) h (logged s) (calls s).

Definition with_logged (s : SpyderShell) (l : list string) : SpyderShell :=
  mkShell (_namespace_stack s) (_request_pdb_stop s) (_pdb_conf s)
    (_allow_kbdint s) (_SpyderShell__user_ns s) (magics_line s)
    (magics_cell s) (heap s) l (calls s).

Definition with_calls (s : SpyderShell) (c : list call) : SpyderShell :=
  mkShell (_namespace_stack s) (_request_pdb_stop s) (_pdb_conf s)
    (_allow_kbdint s) (_SpyderShell__user_ns s) (magics_line s)
    (magics_cell s) (heap s) (logged s) c.

(** [logger.debug(msg)] *)
Definition logger_debug (s : SpyderShell) (msg : string) : SpyderShell :=
  with_logged s (logged s ++ [msg]).

Definition record_call (s : SpyderShell) (c : call) : SpyderShell :=
  with_calls s (calls s ++ [c]).

(** ** Namespace resolution *)

(** [user_ns]: the loop [for session in self._namespace_stack[::-1]], on the
    stack already reversed. *)
Fixpoint user_ns_scan (h : gmap ref obj) (fallback : ref)
    (sessions : list ref) : ref :=
  match sessions with
  | [] => fallback
  | session :: rest =>
      match h !! session with
      | Some (OPdb p) =>
          match curframe p with
          | Some fr => f_globals fr
          | None => user_ns_scan h fallback rest
          end
      | Some (ONsm m) => ns_globals m
      | _ => user_ns_scan h fallback rest
      end
  end.

Definition user_ns (s : SpyderShell) : ref :=
  user_ns_scan (heap s) (_SpyderShell__user_ns s) (rev (_namespace_stack s)).

(** [is_debugging] *)
Fixpoint is_debugging_scan (h : gmap ref obj) (sessions : list ref) : bool :=
  match sessions with
  | [] => false
  | session :: rest =>
      match h !! session with
      | Some (OPdb p) =>
          match curframe p with
          | Some _ => true
          | None => is_debugging_scan h rest
          end
      | _ => is_debugging_scan h rest
      end
  end.

Definition is_debugging (s : SpyderShell) : bool :=
  is_debugging_scan (heap s) (rev (_namespace_stack s)).

(** [pdb_session]: the top-most entry that is a [SpyderPdb] instance, or
    [None]. *)
Fixpoint pdb_session_scan (h : gmap ref obj) (sessions : list ref)
    : option ref :=
  match sessions with
  | [] => None
  | session :: rest =>
      match h !! session with
      | Some (OPdb _) => Some session
      | _ => pdb_session_scan h rest
      end
  end.

Definition pdb_session (s : SpyderShell) : option ref :=
  pdb_session_scan (heap s) (rev (_namespace_stack s)).

(** [context_locals]: the loop returns [Some x] when a [return x] is reached
    inside it and [None] when it runs to its end. *)
Fixpoint context_locals_scan (h : gmap ref obj) (fr : option frame)
    (sessions : list ref) : option (option ref) :=
  match sessions with
  | [] => None
  | session :: rest =>
      match h !! session with
      | Some (OPdb p) =>
          match curframe p with
          | Some cf =>
              match fr with
              | None => Some (curframe_locals p)
              | Some f =>
                  if decide (f = cf) then Some (curframe_locals p)
                  else context_locals_scan h fr rest
              end
          | None => context_locals_scan h fr rest
          end
      | Some (ONsm m) =>
          match fr with
          | None => Some (ns_locals m)
          | Some _ => context_locals_scan h fr rest
          end
      | _ => context_locals_scan h fr rest
      end
  end.

Definition context_locals (s : SpyderShell) (fr : option frame)
    : option ref :=
  match context_locals_scan (heap s) fr (rev (_namespace_stack s)) with
  | Some r => r
  | None =>
      match fr with
      | Some f => Some (f_locals f)
      | None => None
      end
  end.

(** ** Debugger configuration *)

Definition PDB_CONF_KEYS : list string :=
  [ "pdb_ignore_lib";
    "pdb_execute_events";
    "pdb_use_exclamation_mark";
    "pdb_stop_first_line";
    "breakpoints";
    "pdb_publish_stack" ].

Definition pdb_setattr (p : SpyderPdb) (key : string) (v : value) : SpyderPdb :=
  mkPdb (curframe p) (curframe_locals p) (interrupting p) (allow_kbdint p)
    (<[key := v]> (attrs p)).

(** A debugger session once it is marked as interrupting. *)
Definition marked_interrupting (p : SpyderPdb) : SpyderPdb :=
  mkPdb (curframe p) (curframe_locals p) true (allow_kbdint p) (attrs p).

(** [setattr(o, key, v)] on a debugger session. *)
Definition setattr (h : gmap ref obj) (o : ref) (key : string) (v : value)
    : gmap ref obj :=
  match h !! o with
  | Some (OPdb p) => <[o := OPdb (pdb_setattr p key v)]> h
  | _ => h
  end.

(** The argument of [set_pdb_configuration] is a dictionary object: either
    the shell's own [_pdb_conf] (as in [self.set_pdb_configuration(
    self._pdb_conf)], where reads see the writes of the loop) or another
    dictionary. *)
Inductive conf_arg :=
  | ConfSelf
  | ConfDict (d : dict).

Definition conf_get (s : SpyderShell) (pdb_conf : conf_arg) (key : string)
    : option value :=
  match pdb_conf with
  | ConfSelf => _pdb_conf s !! key
  | ConfDict d => d !! key
  end.

(** One iteration of [for key in self.PDB_CONF_KEYS]. *)
Definition set_pdb_configuration_key (pdb_conf : conf_arg) (s : SpyderShell)
    (key : string) : SpyderShell :=
  match conf_get s pdb_conf key with
  | Some _ =>
      let s1 :=
        match conf_get s pdb_conf key with
        | Some v => with_pdb_conf s (<[key := v]> (_pdb_conf s))
        | None => s
        end in
      match pdb_session s1 with
      | Some session =>
          match conf_get s1 pdb_conf key with
          | Some v => with_heap s1 (setattr (heap s1) session key v)
          | None => s1
          end
      | None => s1
      end
  | None => s
  end.

Definition set_pdb_configuration (s : SpyderShell) (pdb_conf : conf_arg)
    : SpyderShell :=
  fold_left (set_pdb_configuration_key pdb_conf) PDB_CONF_KEYS s.

(** ** Pushing and popping sessions *)

(** [l[-1]] *)
Definition list_top {A : Type} (l : list A) : result A :=
  match rev l with
  | [] => Raise IndexError
  | x :: _ => Ok x
  end.

(** [l.pop()]: the list without its last element, and that element. *)
Definition list_pop {A : Type} (l : list A) : result (list A * A) :=
  match rev l with
  | [] => Raise IndexError
  | x :: r => Ok (rev r, x)
  end.

Definition add_pdb_session (s : SpyderShell) (pdb_obj : ref) : SpyderShell :=
  if decide (pdb_session s = Some pdb_obj) then s
  else
    let s1 := with_stack s (_namespace_stack s ++ [pdb_obj]) in
    set_pdb_configuration s1 ConfSelf.

Definition remove_pdb_session (s : SpyderShell) (pdb_obj : ref)
    : result unit * SpyderShell :=
  if decide (pdb_session s = Some pdb_obj) then
    match list_pop (_namespace_stack s) with
    | Raise e => (Raise e, s)
    | Ok (st, _) =>
        let s1 := with_stack s st in
        match pdb_session s1 with
        | Some _ => (Ok tt, set_pdb_configuration s1 ConfSelf)
        | None => (Ok tt, s1)
        end
    end
  else (Ok tt, s).

Definition add_namespace_manager (s : SpyderShell) (ns_manager : ref)
    : SpyderShell :=
  with_stack s (_namespace_stack s ++ [ns_manager]).

Definition remove_namespace_manager (s : SpyderShell) (ns_manager : ref)
    : result unit * SpyderShell :=
  match list_top (_namespace_stack s) with
  | Raise e => (Raise e, s)
  | Ok top =>
      if decide (top = ns_manager) then
        match list_pop (_namespace_stack s) with
        | Raise e => (Raise e, s)
        | Ok (st, _) => (Ok tt, with_stack s st)
        end
      else (Ok tt, logger_debug s "The namespace stack is inconsistent.")
  end.

(** ** A copy of the current namespace *)

(** Computations on the shell that may raise. *)
Definition M (A : Type) : Type := SpyderShell → result A * SpyderShell.

Definition ret {A : Type} (a : A) : M A := fun s => (Ok a, s).

Definition raise {A : Type} (e : exn) : M A := fun s => (Raise e, s).

Definition bind {A B : Type} (m : M A) (k : A → M B) : M B :=
  fun s =>
    match m s with
    | (Ok a, s1) => k a s1
    | (Raise e, s1) => (Raise e, s1)
    end.

Notation "'do' x <- m ; k" := (bind m (fun x => k))
  (at level 10, x name, m at level 100, k at level 200,
   format "'[v' 'do'  x  <-  m ; '/' k ']'").

(** [{}] and [d.copy()]: a new dictionary object with the given content. *)
Definition new_dict (d : dict) : M ref :=
  fun s =>
    let r := fresh (dom (heap s)) in
    (Ok r, with_heap s (<[r := ODict d]> (heap s))).

(** Reading a dictionary through a reference; anything else has no
    [copy] method and cannot be the argument of [update]. *)
Definition read_dict (e : exn) (r : ref) : M dict :=
  fun s =>
    match heap s !! r with
    | Some (ODict d) => (Ok d, s)
    | _ => (Raise e, s)
    end.

(** [ns.update(other)] with the content of [other] already read: keys of
    [other] win. *)
Definition dict_update (ns : ref) (other : dict) : M unit :=
  fun s =>
    match heap s !! ns with
    | Some (ODict d) => (Ok tt, with_heap s (<[ns := ODict (other ∪ d)]> (heap s)))
    | _ => (Raise AttributeError, s)
    end.

(** Truth value of the result of [context_locals()]: [None] and the empty
    dictionary are false. *)
Definition truthy (h : gmap ref obj) (v : option ref) : bool :=
  match v with
  | None => false
  | Some r =>
      match h !! r with
      | Some (ODict d) => negb (bool_decide (d = ∅))
      | _ => true
      end
  end.

Definition get_context_locals (fr : option frame) : M (option ref) :=
  fun s => (Ok (context_locals s fr), s).

Definition get_user_ns : M ref := fun s => (Ok (user_ns s), s).

(** [ns.update(v)] where [v] may be [None] (not iterable). *)
Definition update_from (ns : ref) (v : option ref) : M unit :=
  match v with
  | None => raise TypeError
  | Some r =>
      do d <- read_dict TypeError r;
      dict_update ns d
  end.

Definition _get_current_namespace (with_magics : bool) (fr : option frame)
    : M ref :=
  match fr with
  | Some f =>
      do g <- read_dict AttributeError (f_globals f);
      do ns <- new_dict g;
      do cl <- get_context_locals (Some f);
      do _ <- update_from ns cl;
      ret ns
  | None =>
      do ns <- new_dict ∅;
      do u <- get_user_ns;
      do _ <- update_from ns (Some u);
      do cl <- get_context_locals None;
      do _ <- (fun s => if truthy (heap s) cl then update_from ns cl s
                        else ret tt s);
      do _ <- (if with_magics then
                 do line_magics <- (fun s => (Ok (magics_line s), s));
                 do cell_magics <- (fun s => (Ok (magics_cell s), s));
                 do _ <- dict_update ns line_magics;
                 dict_update ns cell_magics
               else ret tt);
      ret ns
  end.

(** ** Interrupt policy *)

(** Modelled from the spec: the constructor [SpyderPdb()] of the external
    debugger class, which yields a new session that has no current frame,
    is not interrupting and does not allow a raised interrupt. *)
Definition new_SpyderPdb : M ref :=
  fun s =>
    let d := fresh (dom (heap s)) in
    (Ok d,
     record_call
       (with_heap s (<[d := OPdb (mkPdb None None false false ∅)]> (heap s)))
       (CallSpyderPdb d)).

(** Modelled from the spec: the method [interrupt()] of the external
    debugger session, which marks the session as interrupting. *)
Definition pdb_interrupt (d : ref) : M unit :=
  fun s =>
    match heap s !! d with
    | Some (OPdb p) =>
        (Ok tt,
         record_call
           (with_heap s (<[d := OPdb (marked_interrupting p)]> (heap s)))
           (CallInterrupt d))
    | _ => (Raise AttributeError, s)
    end.

(** Modelled from the spec: the method [set_trace(frame)] of the external
    debugger session, which attaches the session to the frame; the shell's
    own state is not touched. *)
Definition pdb_set_trace (d : ref) (fr : option frame) : M unit :=
  fun s => (Ok tt, record_call s (CallSetTrace d fr)).

(** Reading the flags of a debugger session. *)
Definition pdb_get {A : Type} (field : SpyderPdb → A) (d : ref) : M A :=
  fun s =>
    match heap s !! d with
    | Some (OPdb p) => (Ok (field p), s)
    | _ => (Raise AttributeError, s)
    end.

Definition spyderkernel_sigint_handler (signum : Z) (fr : option frame)
    : M unit :=
  fun s =>
    if _request_pdb_stop s then
      (do debugger <- new_SpyderPdb;
       do _ <- pdb_interrupt debugger;
       do _ <- pdb_set_trace debugger fr;
       ret tt) (with_request_pdb_stop s false)
    else
      match pdb_session s with
      | Some session =>
          (do allow <- pdb_get allow_kbdint session;
           if allow : bool then raise KeyboardInterrupt
           else
             do pending <- pdb_get interrupting session;
             if pending : bool then raise KeyboardInterrupt
             else
               do _ <- pdb_interrupt session;
               ret tt) s
      | None =>
          if _allow_kbdint s then raise KeyboardInterrupt s
          else ret tt s
      end.

(** [showtraceback()]: the display is done by the host shell; only the call
    is recorded. *)
Definition showtraceback : M unit :=
  fun s => (Ok tt, record_call s CallShowTraceback).

Section RunCode.

(** [super().run_code]: the host's execution of the submitted code, which
    returns a value or raises, and may change the shell. *)
Variable super_run_code : M value.

Definition run_code : M value :=
  fun s =>
    let '(r, s1) := super_run_code (with_allow_kbdint s true) in
    (* finally *)
    let s2 := with_allow_kbdint s1 false in
    match r with
    | Raise KeyboardInterrupt =>
        (do _ <- showtraceback; ret VNone) s2
    | _ => (r, s2)
    end.

End RunCode.

(** ** Strings *)

Definition newline : ascii := "010"%char.
Definition escape : ascii := "027"%char.
Definition double_quote : ascii := "034"%char.

(** [line.startswith(p)] *)
Fixpoint startswith (line p : string) {struct p} : bool :=
  match p with
  | EmptyString => true
  | String c p' =>
      match line with
      | EmptyString => false
      | String d line' => Ascii.eqb c d && startswith line' p'
      end
  end.

(** [needle in hay] for strings. *)
Fixpoint str_in (needle hay : string) : bool :=
  startswith hay needle ||
  match hay with
  | EmptyString => false
  | String _ hay' => str_in needle hay'
  end.

(** [any(l)] *)
Definition any (l : list bool) : bool := fold_right orb false l.

(** [itertools.product(l1, l2)] *)
Definition product {A B : Type} (l1 : list A) (l2 : list B) : list (A * B) :=
  flat_map (fun a => map (pair a) l2) l1.

(** ** Input cleanup *)

Definition _disabled_pkg_managers : list string :=
  [ "conda"; "mamba"; "micromamba"; "pip"; "pixi"; "uv" ].

Definition _disable_pkg_managers_msg : string :=
  "\nInstalling packages through the IPython console doesn't work " +:+
  "reliably in Spyder. Please use a system terminal to do that, " +:+
  "i.e. cmd.exe on Windows, Terminal on macOS or xterm on " +:+
  "Linux.".

Definition warning_line : string :=
  "print(" +:+ String double_quote _disable_pkg_managers_msg
  +:+ String double_quote ")".

Definition is_pkg_manager_call (line : string) : bool :=
  any (map (fun '(prefix, command) => startswith line (prefix +:+ command))
         (product ["%"; "!"] _disabled_pkg_managers)).

Fixpoint _do_input_cleanup_loop (lines rest : list string) : list string :=
  match rest with
  | [] => lines
  | line :: rest' =>
      if is_pkg_manager_call line then [warning_line]
      else _do_input_cleanup_loop lines rest'
  end.

Definition _do_input_cleanup (lines : list string) : list string :=
  _do_input_cleanup_loop lines lines.

(** ** Regular expressions

    The fragment of Python's [re] syntax that the two patterns of
    [_showtraceback] use. *)

Inductive regex :=
  | RVoid
  | REps
  | RChar (c : ascii)
  | RDot
  | RCat (r1 r2 : regex)
  | RAlt (r1 r2 : regex)
  | RStar (r : regex)
  | RGroup (r : regex).

(** A run of literal characters. *)
Fixpoint lit (s : string) : regex :=
  match s with
  | EmptyString => REps
  | String c s' => RCat (RChar c) (lit s')
  end.

Fixpoint nullable (r : regex) : bool :=
  match r with
  | RVoid => false
  | REps => true
  | RChar _ => false
  | RDot => false
  | RCat r1 r2 => nullable r1 && nullable r2
  | RAlt r1 r2 => nullable r1 || nullable r2
  | RStar _ => true
  | RGroup r => nullable r
  end.

(** What remains to be matched after reading [c]; [.] reads any character
    but a newline. *)
Fixpoint deriv (c : ascii) (r : regex) : regex :=
  match r with
  | RVoid => RVoid
  | REps => RVoid
  | RChar d => if Ascii.eqb c d then REps else RVoid
  | RDot => if Ascii.eqb c newline then RVoid else REps
  | RCat r1 r2 =>
      RAlt (RCat (deriv c r1) r2) (if nullable r1 then deriv c r2 else RVoid)
  | RAlt r1 r2 => RAlt (deriv c r1) (deriv c r2)
  | RStar r => RCat (deriv c r) (RStar r)
  | RGroup r => deriv c r
  end.

(** [re.match(r, line)] as a truth value: some prefix of [line] matches. *)
Fixpoint re_match (r : regex) (line : string) : bool :=
  nullable r ||
  match line with
  | EmptyString => false
  | String c rest => re_match (deriv c r) rest
  end.

(** ** Traceback filtering *)

(** Verbose mode: the literal text File and a space, then a group that
    holds any run of characters other than a newline. *)
Definition pattern_verbose : regex :=
  RCat (lit "File ") (RGroup (RStar RDot)).

(** Plain mode: the escape character (code 27) and an opening square
    bracket, a group holding any run of characters other than a newline,
    two spaces, the literal text File and a space, then such a group
    again. *)
Definition pattern_plain : regex :=
  RCat (lit (String escape "["))
    (RCat (RGroup (RStar RDot))
       (RCat (lit "  File ") (RGroup (RStar RDot)))).

(** [os.path.join(a, b)] for a relative [b] and an [a] that does not end
    with the separator [sep] of the platform. *)
Definition os_path_join (sep a b : string) : string := a +:+ sep +:+ b.

Definition _package_locations (sep : string) : list string :=
  [ os_path_join sep "site-packages" "spyder_kernels";
    os_path_join sep (os_path_join sep "external-deps" "spyder-kernels")
      "spyder_kernels" ].

(** The type of the exception: [bdb.BdbQuit] or any other class. *)
Inductive etype :=
  | BdbQuit
  | OtherException (name : string).

(** The condition under which the loop of [_showtraceback] skips a line. *)
Definition skipped (locations : list string) (line : string) : bool :=
  (re_match pattern_verbose line || re_match pattern_plain line)
  && any (map (fun location => str_in location line) locations).

Fixpoint _showtraceback_loop (locations : list string)
    (spyder_stb stb : list string) : list string :=
  match stb with
  | [] => spyder_stb
  | line :: rest =>
      if skipped locations line then
        _showtraceback_loop locations spyder_stb rest
      else _showtraceback_loop locations (spyder_stb ++ [line]) rest
  end.

(** [_showtraceback]: the list [spyder_stb] that is handed to the host's
    [_showtraceback]. *)
Definition _showtraceback (locations : list string) (et : etype)
    (stb : list string) : list string :=
  match et with
  | BdbQuit => [] ++ [EmptyString]
  | OtherException _ => _showtraceback_loop locations [] stb
  end.

(** ** The resolution order in the words of the specification

    A debugger session that has a current frame wins wherever it is on the
    stack, then the most recent namespace manager, then the fallback. *)

Fixpoint first_debugging_globals (h : gmap ref obj) (sessions : list ref)
    : option ref :=
  match sessions with
  | [] => None
  | session :: rest =>
      match h !! session with
      | Some (OPdb (mkPdb (Some fr) _ _ _ _)) => Some (f_globals fr)
      | _ => first_debugging_globals h rest
      end
  end.

Fixpoint first_manager_globals (h : gmap ref obj) (sessions : list ref)
    : option ref :=
  match sessions with
  | [] => None
  | session :: rest =>
      match h !! session with
      | Some (ONsm m) => Some (ns_globals m)
      | _ => first_manager_globals h rest
      end
  end.

Definition spec_user_ns (s : SpyderShell) : ref :=
  let sessions := rev (_namespace_stack s) in
  match first_debugging_globals (heap s) sessions with
  | Some g => g
  | None =>
      match first_manager_globals (heap s) sessions with
      | Some g => g
      | None => _SpyderShell__user_ns s
      end
  end.

(** An entry of the stack that decides the namespace [g]: a debugger
    session stopped at a frame, or a namespace manager. *)
Definition resolves (h : gmap ref obj) (r : ref) (g : ref) : Prop :=
  (∃ p fr, h !! r = Some (OPdb p) ∧ curframe p = Some fr ∧ g = f_globals fr)
  ∨ (∃ m, h !! r = Some (ONsm m) ∧ g = ns_globals m).

Definition resolving (h : gmap ref obj) (r : ref) : Prop :=
  ∃ g, resolves h r g.

(** The configuration of session [d] agrees with the persisted mapping on
    every key of [keys] that the mapping holds. *)
Definition conf_applied (s : SpyderShell) (keys : list string) (d : ref)
    : Prop :=
  ∃ p, heap s !! d = Some (OPdb p)
       ∧ ∀ key v, key ∈ keys → _pdb_conf s !! key = Some v →
                  attrs p !! key = Some v.

(** The number of debugger sessions constructed so far. *)
Definition is_construction (c : call) : bool :=
  match c with
  | CallSpyderPdb _ => true
  | _ => false
  end.

Definition sessions_created (s : SpyderShell) : nat :=
  length (List.filter is_construction (calls s)).

(** A host execution that is interrupted: it raises [KeyboardInterrupt]
    and changes nothing. *)
Definition interrupted_super : M value := raise KeyboardInterrupt.

(** The shell with one more dictionary object, [ns], in its heap. *)
Definition with_new (s : SpyderShell) (ns : ref) (d : dict) : SpyderShell :=
  with_heap s (<[ns := ODict d]> (heap s)).

(** A computation that, started with the new dictionary [ns] in place,
    writes to nothing but [ns], and whose result, when it returns one,
    satisfies [Q]. *)
Definition stays (s0 : SpyderShell) (ns : ref) {A : Type} (Q : A → Prop)
    (m : M A) : Prop :=
  ∀ d, ∃ d', snd (m (with_new s0 ns d)) = with_new s0 ns d'
             ∧ ∀ a, fst (m (with_new s0 ns d)) = Ok a → Q a.

Definition any_result {A : Type} : A → Prop := fun _ => True.

(** The final state differs from the initial one by at most one new
    dictionary object. *)
Definition only_adds (s s' : SpyderShell) : Prop :=
  s' = s ∨ ∃ ns d, heap s !! ns = None ∧ s' = with_new s ns d.

(** A line that calls a package manager, in the words of the
    specification: one of the two prefixes, then at once the name of a
    package manager, then anything. *)
Definition disallowed_call (line : string) : Prop :=
  ∃ prefix command rest,
    prefix ∈ ["%"; "!"] ∧ command ∈ _disabled_pkg_managers
    ∧ line = prefix +:+ command +:+ rest.

(** The strings that a regular expression matches in full. *)
Inductive star (P : string → Prop) : string → Prop :=
  | star_nil : star P EmptyString
  | star_app s1 s2 : P s1 → star P s2 → star P (s1 +:+ s2).

Fixpoint matches (r : regex) (s : string) : Prop :=
  match r with
  | RVoid => False
  | REps => s = EmptyString
  | RChar c => s = String c EmptyString
  | RDot => ∃ c, c ≠ newline ∧ s = String c EmptyString
  | RCat r1 r2 => ∃ s1 s2, s = s1 +:+ s2 ∧ matches r1 s1 ∧ matches r2 s2
  | RAlt r1 r2 => matches r1 s ∨ matches r2 s
  | RStar r => star (matches r) s
  | RGroup r => matches r s
  end.

Fixpoint no_newline (a : string) : Prop :=
  match a with
  | EmptyString => True
  | String c a' => c ≠ newline ∧ no_newline a'
  end.

(** A file-location line of a traceback, in the two rendering styles. *)
Definition file_line_verbose (line : string) : Prop :=
  ∃ rest, line = "File " +:+ rest.

Definition file_line_plain (line : string) : Prop :=
  ∃ a rest, no_newline a
            ∧ line = String escape "[" +:+ a +:+ "  File " +:+ rest.

(** The line contains one of the installation paths. *)
Definition names_location (locations : list string) (line : string) : Prop :=
  ∃ location before after,
    location ∈ locations ∧ line = before +:+ location +:+ after.

Definition internal_file_line (locations : list string) (line : string)
    : Prop :=
  (file_line_verbose line ∨ file_line_plain line)
  ∧ names_location locations line.

(** [out] is [stb] without the lines that satisfy [P], the other lines in
    their order. *)
Inductive without (P : string → Prop) : list string → list string → Prop :=
  | without_nil : without P [] []
  | without_drop line stb out :
      P line → without P stb out → without P (line :: stb) out
  | without_keep line stb out :
      ¬ P line → without P stb out → without P (line :: stb) (line :: out).

(** [isinstance(r, SpyderPdb)] *)
Definition is_pdb (h : gmap ref obj) (r : ref) : bool :=
  match h !! r with
  | Some (OPdb _) => true
  | _ => false
  end.

(** What [_get_current_namespace] may do to the shell: raise, having added
    at most one dictionary, or return a dictionary that did not exist
    before; every field of the shell but the heap is as it was. *)
Definition copy_outcome (s : SpyderShell) (out : result ref * SpyderShell)
    : Prop :=
  match out with
  | (Raise _, s') => only_adds s s'
  | (Ok ns, s') => heap s !! ns = None ∧ ∃ d, s' = with_new s ns d
  end.

(** The local scope that [context_locals()] gives when no frame is named:
    none, or the content of a dictionary. *)
Definition context_locals_content (s : SpyderShell) (l : dict) : Prop :=
  match context_locals s None with
  | None => l = ∅
  | Some lr => heap s !! lr = Some (ODict l)
  end.

(** ** Sample states *)

(** Objects: a debugger session stopped at a frame (1), a namespace manager
    (2), a debugger session without a frame (3), and five dictionaries. *)
Definition sample_frame : frame := mkFrame 100 10 11.

Definition sample_heap : gmap ref obj :=
  <[1 := OPdb (mkPdb (Some sample_frame) (Some 11) false false ∅)]>
  (<[2 := ONsm (mkNsm 20 (Some 21))]>
  (<[3 := OPdb (mkPdb None None false false ∅)]>
  (<[10 := ODict {["x" := VInt 1; "y" := VInt 2]}]>
  (<[11 := ODict {["x" := VInt 5]}]>
  (<[20 := ODict {["z" := VInt 3]}]>
  (<[21 := ODict ∅]>
  (<[30 := ODict {["u" := VInt 4]}]> ∅))))))).

Definition sample_conf : dict :=
  {["pdb_ignore_lib" := VBool true; "breakpoints" := VInt 7]}.

Definition shell_with (stack : list ref) : SpyderShell :=
  mkShell stack false sample_conf false 30 {["run" := VRef 40]}
    {["time" := VRef 41]} sample_heap [] [].

(** The debugger session was pushed first, the namespace manager after
    it. *)
Definition shell_pdb_then_manager : SpyderShell := shell_with [1; 2].

Definition shell_manager_then_pdb : SpyderShell := shell_with [2; 1].

Definition shell_empty : SpyderShell := shell_with [].

(** ** Further methods of the shell *)

(** [_pdb_frame]: the current frame of the top-most debugger session. *)
Definition _pdb_frame (s : SpyderShell) : option frame :=
  match pdb_session s with
  | Some session =>
      match heap s !! session with
      | Some (OPdb p) => curframe p
      | _ => None
      end
  | None => None
  end.

(** [name in lcls] for a dictionary. *)
Definition dict_contains (d : dict) (name : string) : bool :=
  bool_decide (is_Some (d !! name)).

(** [_get_reference_namespace(name)] *)
Definition _get_reference_namespace (name : string) : M ref :=
  do lcls <- get_context_locals None;
  fun s =>
    if truthy (heap s) lcls then
      match lcls with
      | Some r =>
          (do d <- read_dict TypeError r;
           if dict_contains d name then ret r else get_user_ns) s
      | None => get_user_ns s
      end
    else get_user_ns s.

(** What [signal.getsignal(signal.SIGINT)] gives: the handler of the shell
    or something else, of which only the [repr] is used. *)
Inductive sigint_handler :=
  | SpyderHandler
  | OtherHandler (repr : string).

Definition request_pdb_stop_msg : string :=
  "Can not signal main thread to stop as SIGINT " +:+
  "handler was replaced and the debugger is not active. " +:+
  "The current handler is: ".

(** [request_pdb_stop].  Sending the signal ([raise_interrupt_signal]) is
    the host's business: the result tells whether it was asked for. *)
Definition request_pdb_stop (current : sigint_handler) : M bool :=
  fun s =>
    match pdb_session s with
    | Some session =>
        (do pending <- pdb_get interrupting session;
         if pending : bool then ret false
         else
           do _ <- pdb_interrupt session;
           ret false) s
    | None =>
        match current with
        | SpyderHandler => (Ok true, with_request_pdb_stop s true)
        | OtherHandler repr =>
            (Ok false, logger_debug s (request_pdb_stop_msg +:+ repr))
        end
    end.

(** [pdb_input_reply].  Interrupting the event loop is the kernel's
    business: the result tells whether it was asked for. *)
Definition pdb_input_reply (line : string) (echo_stack_entry : bool)
    : M bool :=
  fun s =>
    match pdb_session s with
    | None => (Ok false, s)
    | Some debugger =>
        let h1 := setattr (heap s) debugger "_disable_next_stack_entry"
                    (VBool (negb echo_stack_entry)) in
        let h2 := setattr h1 debugger "_cmd_input_line" (VStr line) in
        (Ok true, with_heap s h2)
    end.

(** The shell as [__init__] leaves it, on the heap, fallback namespace and
    magics that the host provides. *)
Definition startup (h : gmap ref obj) (u : ref) (line_magics cell_magics : dict)
    : SpyderShell :=
  mkShell [] false ∅ false u line_magics cell_magics h [] [].

(** Calls of the methods above, and the state they leave (also when they
    raise). *)
Inductive op :=
  | OpAddPdb (r : ref)
  | OpRemovePdb (r : ref)
  | OpAddNsm (r : ref)
  | OpRemoveNsm (r : ref)
  | OpSetConf (d : dict)
  | OpSigint (signum : Z) (fr : option frame)
  | OpRequestStop (current : sigint_handler)
  | OpInputReply (line : string) (echo : bool)
  | OpCopyNamespace (with_magics : bool) (fr : option frame)
  | OpReferenceNamespace (name : string).

Definition apply_op (s : SpyderShell) (o : op) : SpyderShell :=
  match o with
  | OpAddPdb r => add_pdb_session s r
  | OpRemovePdb r => snd (remove_pdb_session s r)
  | OpAddNsm r => add_namespace_manager s r
  | OpRemoveNsm r => snd (remove_namespace_manager s r)
  | OpSetConf d => set_pdb_configuration s (ConfDict d)
  | OpSigint signum fr => snd (spyderkernel_sigint_handler signum fr s)
  | OpRequestStop current => snd (request_pdb_stop current s)
  | OpInputReply line echo => snd (pdb_input_reply line echo s)
  | OpCopyNamespace with_magics fr =>
      snd (_get_current_namespace with_magics fr s)
  | OpReferenceNamespace name => snd (_get_reference_namespace name s)
  end.

Definition run_ops (s : SpyderShell) (ops : list op) : SpyderShell :=
  fold_left apply_op ops s.

(** The local scope that a deciding entry of the stack gives. *)
Definition resolves_locals (h : gmap ref obj) (r : ref) (l : option ref)
    : Prop :=
  (∃ p fr, h !! r = Some (OPdb p) ∧ curframe p = Some fr
           ∧ l = curframe_locals p)
  ∨ (∃ m, h !! r = Some (ONsm m) ∧ l = ns_locals m).

(** A debugger session that is stopped at the frame [f]. *)
Definition stopped_at (h : gmap ref obj) (f : frame) (r : ref) : Prop :=
  ∃ p, h !! r = Some (OPdb p) ∧ curframe p = Some f.

(** A debugger session that has a current frame. *)
Definition has_frame (h : gmap ref obj) (r : ref) : Prop :=
  ∃ p fr, h !! r = Some (OPdb p) ∧ curframe p = Some fr.

(** Every key of the persisted configuration is one of [PDB_CONF_KEYS]. *)
Definition conf_keys_known (s : SpyderShell) : Prop :=
  ∀ key, is_Some (_pdb_conf s !! key) → key ∈ PDB_CONF_KEYS.

(** What one key of the dictionary [d] does to the persisted
    configuration [c]. *)
Definition conf_merge (d : dict) (c : dict) (key : string) : dict :=
  match d !! key with
  | Some v => <[key := v]> c
  | None => c
  end.

(** The session [r] carries the value that [d] gives to every key of
    [keys]. *)
Definition carries (h : gmap ref obj) (d : dict) (keys : list string)
    (r : ref) : Prop :=
  ∃ p, h !! r = Some (OPdb p)
       ∧ ∀ key v, key ∈ keys → d !! key = Some v → attrs p !! key = Some v.

(** * Properties *)

(** ** Namespace resolution *)

Lemma elem_of_rev {A : Type} (x : A) (l : list A) : x ∈ rev l ↔ x ∈ l.
Proof. rewrite !list_elem_of_In. symmetry. apply in_rev. Qed.

Lemma user_ns_scan_skip h fb l1 l2 :
  (∀ r, r ∈ l1 → ¬ resolving h r) →
  user_ns_scan h fb (l1 ++ l2) = user_ns_scan h fb l2.
Proof.
  induction l1 as [|a l1 IH]; intros Hno; [reflexivity|].
  assert (Hrest : ∀ r, r ∈ l1 → ¬ resolving h r).
  { intros r Hr. apply Hno. by apply list_elem_of_further. }
  assert (Ha : ¬ resolving h a) by (apply Hno; apply list_elem_of_here).
  simpl. destruct (h !! a) as [[p|m|d|]|] eqn:E; auto.
  - destruct (curframe p) as [fr|] eqn:Ec; auto.
    exfalso. apply Ha. exists (f_globals fr). left. eauto.
  - exfalso. apply Ha. exists (ns_globals m). right. eauto.
Qed.

Lemma user_ns_scan_resolves h fb r g rest :
  resolves h r g → user_ns_scan h fb (r :: rest) = g.
Proof.
  intros [(p & fr & Hp & Hc & ->)|(m & Hm & ->)]; simpl.
  - by rewrite Hp, Hc.
  - by rewrite Hm.
Qed.

(** C1, as the code has it: the most recently pushed entry that is either a
    debugger session with a current frame or a namespace manager decides
    the active namespace (the frame's globals, or the manager's globals);
    when the stack holds no such entry, the active namespace is the
    persistent fallback user namespace. *)
Theorem user_ns_innermost (s : SpyderShell) :
  (∀ older r newer g,
      _namespace_stack s = older ++ r :: newer →
      resolves (heap s) r g →
      (∀ r', r' ∈ newer → ¬ resolving (heap s) r') →
      user_ns s = g)
  ∧ ((∀ r, r ∈ _namespace_stack s → ¬ resolving (heap s) r) →
     user_ns s = _SpyderShell__user_ns s).
Proof.
  unfold user_ns. split.
  - intros older r newer g Hst Hres Hnew.
    rewrite Hst, rev_app_distr. simpl. rewrite <- app_assoc. simpl.
    rewrite user_ns_scan_skip.
    + by apply user_ns_scan_resolves.
    + intros r' Hr'. apply Hnew. by apply elem_of_rev.
  - intros Hno.
    rewrite <- (app_nil_r (rev (_namespace_stack s))).
    rewrite user_ns_scan_skip; [reflexivity|].
    intros r Hr. apply Hno. by apply elem_of_rev.
Qed.

Lemma user_ns_innermost_witness :
  user_ns shell_pdb_then_manager = 20 ∧ user_ns (shell_with [3]) = 30.
Proof.
  split.
  - apply (proj1 (user_ns_innermost shell_pdb_then_manager) [1] 2 [] 20).
    + reflexivity.
    + right. exists (mkNsm 20 (Some 21)). split; reflexivity.
    + intros r' Hr'. by apply elem_of_nil in Hr'.
  - apply (proj2 (user_ns_innermost (shell_with [3]))).
    intros r Hr. apply list_elem_of_singleton in Hr. subst r.
    intros [g [(p & fr & Hp & Hc & _)|(m & Hm & _)]].
    + vm_compute in Hp. injection Hp as <-. discriminate Hc.
    + vm_compute in Hm. discriminate Hm.
Defined.

(** With a namespace manager pushed after a debugger session that is
    stopped at a frame, [user_ns] is the manager's namespace, not the
    frame's globals that the resolution order of the specification
    gives. *)
Lemma user_ns_counterexample :
  first_debugging_globals (heap shell_pdb_then_manager)
    (rev (_namespace_stack shell_pdb_then_manager)) = Some 10
  ∧ user_ns shell_pdb_then_manager = 20
  ∧ user_ns shell_pdb_then_manager ≠ spec_user_ns shell_pdb_then_manager.
Proof. vm_compute. repeat split; discriminate. Qed.

(** The same resolution on the stack built by the two pushes. *)
Lemma user_ns_after_pushes :
  _namespace_stack (add_namespace_manager (add_pdb_session shell_empty 1) 2)
  = [1; 2]
  ∧ user_ns (add_namespace_manager (add_pdb_session shell_empty 1) 2) = 20.
Proof. vm_compute. split; reflexivity. Qed.

(** ** The stack of sessions *)

Lemma list_top_snoc {A : Type} (l : list A) (x : A) :
  list_top (l ++ [x]) = Ok x.
Proof. unfold list_top. by rewrite rev_unit. Qed.

Lemma list_pop_snoc {A : Type} (l : list A) (x : A) :
  list_pop (l ++ [x]) = Ok (l, x).
Proof. unfold list_pop. by rewrite rev_unit, rev_involutive. Qed.

Lemma list_snoc_inv {A : Type} (l : list A) :
  l = [] ∨ ∃ l' x, l = l' ++ [x].
Proof.
  destruct l as [|a l] using rev_ind; [by left|]. right. eauto.
Qed.

Lemma pdb_session_scan_ext h h' l :
  (∀ r, is_pdb h r = is_pdb h' r) →
  pdb_session_scan h l = pdb_session_scan h' l.
Proof.
  intros Hext. induction l as [|a l IH]; [reflexivity|].
  simpl. specialize (Hext a). unfold is_pdb in Hext.
  destruct (h !! a) as [[]|], (h' !! a) as [[]|]; congruence.
Qed.

Lemma pdb_session_scan_Some h l d :
  pdb_session_scan h l = Some d → d ∈ l ∧ ∃ p, h !! d = Some (OPdb p).
Proof.
  induction l as [|a l IH]; [discriminate|]. simpl.
  destruct (h !! a) as [[p| | |]|] eqn:E;
    try (intros H; destruct (IH H); split; [by apply list_elem_of_further|done]).
  intros [= <-]. split; [apply list_elem_of_here|eauto].
Qed.

Lemma pdb_session_is_pdb s d :
  pdb_session s = Some d →
  d ∈ _namespace_stack s ∧ ∃ p, heap s !! d = Some (OPdb p).
Proof.
  intros H. apply pdb_session_scan_Some in H as [Hin Hp].
  split; [by apply elem_of_rev|done].
Qed.

Lemma setattr_is_pdb h d key v r :
  is_pdb (setattr h d key v) r = is_pdb h r.
Proof.
  unfold setattr. destruct (h !! d) as [[p| | |]|] eqn:E; try reflexivity.
  unfold is_pdb. destruct (decide (d = r)) as [->|Hne].
  - by rewrite lookup_insert_eq, E.
  - by rewrite lookup_insert_ne.
Qed.

Lemma with_pdb_conf_id s : with_pdb_conf s (_pdb_conf s) = s.
Proof. by destruct s. Qed.

(** With the shell's own dictionary as the argument, an iteration writes
    back what it has read and changes at most the session. *)
Lemma set_pdb_configuration_key_self s key :
  set_pdb_configuration_key ConfSelf s key =
  match _pdb_conf s !! key with
  | Some v =>
      match pdb_session s with
      | Some d => with_heap s (setattr (heap s) d key v)
      | None => s
      end
  | None => s
  end.
Proof.
  unfold set_pdb_configuration_key. simpl.
  destruct (_pdb_conf s !! key) as [v|] eqn:E; [|reflexivity].
  rewrite insert_id by done. rewrite with_pdb_conf_id.
  by rewrite E.
Qed.

Lemma set_pdb_configuration_no_session s keys :
  pdb_session s = None →
  fold_left (set_pdb_configuration_key ConfSelf) keys s = s.
Proof.
  intros Hs. induction keys as [|k keys IH]; [reflexivity|].
  simpl. rewrite set_pdb_configuration_key_self, Hs.
  by destruct (_pdb_conf s !! k).
Qed.

Lemma set_pdb_configuration_key_session s d key :
  pdb_session s = Some d →
  let s' := set_pdb_configuration_key ConfSelf s key in
  _namespace_stack s' = _namespace_stack s
  ∧ _pdb_conf s' = _pdb_conf s
  ∧ pdb_session s' = Some d
  ∧ ∀ p, heap s !! d = Some (OPdb p) →
         heap s' !! d =
         Some (OPdb match _pdb_conf s !! key with
                    | Some v => pdb_setattr p key v
                    | None => p
                    end).
Proof.
  intros Hs. simpl. rewrite set_pdb_configuration_key_self, Hs.
  destruct (_pdb_conf s !! key) as [v|] eqn:E; [|by auto].
  repeat split; try reflexivity.
  - unfold pdb_session in *. simpl. rewrite <- Hs.
    apply pdb_session_scan_ext. intros r. apply setattr_is_pdb.
  - intros p Hp. simpl. unfold setattr. rewrite Hp.
    by rewrite lookup_insert_eq.
Qed.

Lemma set_pdb_configuration_session keys : ∀ s d,
  pdb_session s = Some d →
  let s' := fold_left (set_pdb_configuration_key ConfSelf) keys s in
  _namespace_stack s' = _namespace_stack s
  ∧ _pdb_conf s' = _pdb_conf s
  ∧ pdb_session s' = Some d
  ∧ conf_applied s' keys d.
Proof.
  induction keys as [|k keys IH] using rev_ind; intros s d Hs; simpl.
  - repeat split; try done.
    destruct (pdb_session_is_pdb s d Hs) as [_ [p Hp]].
    exists p. split; [done|]. intros key v Hin. by apply elem_of_nil in Hin.
  - rewrite fold_left_app. simpl.
    destruct (IH s d Hs) as (Hst & Hconf & Hsess & p & Hp & Happ).
    set (s1 := fold_left (set_pdb_configuration_key ConfSelf) keys s) in *.
    destruct (set_pdb_configuration_key_session s1 d k Hsess)
      as (Hst' & Hconf' & Hsess' & Hheap).
    repeat split; try congruence.
    eexists. split; [by apply Hheap|].
    intros key v Hin Hv. rewrite Hconf' in Hv.
    destruct (_pdb_conf s1 !! k) as [vk|] eqn:Ek.
    + simpl. destruct (decide (k = key)) as [->|Hne].
      * rewrite lookup_insert_eq. congruence.
      * rewrite lookup_insert_ne by done. apply Happ; [|done].
        apply elem_of_app in Hin as [Hin|Hin]; [done|].
        apply list_elem_of_singleton in Hin. congruence.
    + apply Happ; [|done].
      apply elem_of_app in Hin as [Hin|Hin]; [done|].
      apply list_elem_of_singleton in Hin. congruence.
Qed.

(** Pushing a session object leaves the older entries where they are. *)
Lemma pdb_session_push_pdb s r p :
  heap s !! r = Some (OPdb p) →
  pdb_session (with_stack s (_namespace_stack s ++ [r])) = Some r.
Proof.
  intros Hp. unfold pdb_session. simpl. rewrite rev_unit. simpl.
  by rewrite Hp.
Qed.

(** The whole loop, when a debugger session is active. *)
Lemma set_pdb_configuration_self s d :
  pdb_session s = Some d →
  _namespace_stack (set_pdb_configuration s ConfSelf) = _namespace_stack s
  ∧ _pdb_conf (set_pdb_configuration s ConfSelf) = _pdb_conf s
  ∧ pdb_session (set_pdb_configuration s ConfSelf) = Some d
  ∧ conf_applied (set_pdb_configuration s ConfSelf) PDB_CONF_KEYS d.
Proof.
  intros H. unfold set_pdb_configuration.
  exact (set_pdb_configuration_session PDB_CONF_KEYS s d H).
Qed.

Lemma set_pdb_configuration_self_idle s :
  pdb_session s = None → set_pdb_configuration s ConfSelf = s.
Proof.
  intros H. unfold set_pdb_configuration.
  by apply set_pdb_configuration_no_session.
Qed.

Lemma add_pdb_session_push s pdb_obj :
  pdb_session s ≠ Some pdb_obj →
  add_pdb_session s pdb_obj =
  set_pdb_configuration (with_stack s (_namespace_stack s ++ [pdb_obj]))
    ConfSelf.
Proof.
  intros Hne. unfold add_pdb_session. by rewrite decide_False.
Qed.

Lemma remove_pdb_session_current s st x pdb_obj :
  _namespace_stack s = st ++ [x] →
  pdb_session s = Some pdb_obj →
  remove_pdb_session s pdb_obj =
  match pdb_session (with_stack s st) with
  | Some _ => (Ok tt, set_pdb_configuration (with_stack s st) ConfSelf)
  | None => (Ok tt, with_stack s st)
  end.
Proof.
  intros Hst Hs. unfold remove_pdb_session.
  rewrite decide_True by done. by rewrite Hst, list_pop_snoc.
Qed.

Lemma is_pdb_true h r : is_pdb h r = true → ∃ p, h !! r = Some (OPdb p).
Proof.
  unfold is_pdb. destruct (h !! r) as [[p| | |]|]; try discriminate. eauto.
Qed.

(** C8: after [add_pdb_session] has pushed a session, and after
    [remove_pdb_session] has popped one, the persisted configuration is
    left as it was and the debugger session that is then active, if there
    is one, carries the persisted value of every key of [PDB_CONF_KEYS]
    that the configuration holds; a pushed debugger session is the active
    one. *)
Theorem pdb_configuration_reapplied (s : SpyderShell) (pdb_obj : ref) :
  (pdb_session s ≠ Some pdb_obj →
   let s' := add_pdb_session s pdb_obj in
   _namespace_stack s' = _namespace_stack s ++ [pdb_obj]
   ∧ _pdb_conf s' = _pdb_conf s
   ∧ (is_pdb (heap s) pdb_obj = true → pdb_session s' = Some pdb_obj)
   ∧ ∀ d, pdb_session s' = Some d → conf_applied s' PDB_CONF_KEYS d)
  ∧ (pdb_session s = Some pdb_obj →
     ∃ s', remove_pdb_session s pdb_obj = (Ok tt, s')
           ∧ _namespace_stack s' = removelast (_namespace_stack s)
           ∧ _pdb_conf s' = _pdb_conf s
           ∧ ∀ d, pdb_session s' = Some d →
                  conf_applied s' PDB_CONF_KEYS d).
Proof.
  split.
  - intros Hne. cbv zeta. rewrite (add_pdb_session_push s pdb_obj Hne).
    remember (with_stack s (_namespace_stack s ++ [pdb_obj])) as s1 eqn:Es1.
    assert (Hst1 : _namespace_stack s1 = _namespace_stack s ++ [pdb_obj])
      by (by subst s1).
    assert (Hc1 : _pdb_conf s1 = _pdb_conf s) by (by subst s1).
    assert (Hp1 : is_pdb (heap s) pdb_obj = true →
                  pdb_session s1 = Some pdb_obj).
    { intros Hp. apply is_pdb_true in Hp as [p Hp]. subst s1.
      by apply (pdb_session_push_pdb s pdb_obj p). }
    clear Es1. destruct (pdb_session s1) as [d1|] eqn:Hs1.
    + destruct (set_pdb_configuration_self s1 d1 Hs1)
        as (Hst & Hconf & Hsess & Happ).
      rewrite Hst, Hconf, Hsess.
      split; [exact Hst1|]. split; [exact Hc1|]. split; [exact Hp1|].
      intros d Hd. injection Hd as <-. exact Happ.
    + rewrite (set_pdb_configuration_self_idle s1 Hs1), Hs1.
      split; [exact Hst1|]. split; [exact Hc1|]. split; [exact Hp1|].
      intros d Hd. discriminate Hd.
  - intros Hs.
    destruct (pdb_session_is_pdb s pdb_obj Hs) as [Hin _].
    destruct (list_snoc_inv (_namespace_stack s)) as [Hnil|(st & x & Hst)].
    { rewrite Hnil in Hin. by apply elem_of_nil in Hin. }
    rewrite (remove_pdb_session_current s st x pdb_obj Hst Hs).
    rewrite Hst, removelast_last.
    remember (with_stack s st) as s1 eqn:Es1.
    assert (Hst1 : _namespace_stack s1 = st) by (by subst s1).
    assert (Hc1 : _pdb_conf s1 = _pdb_conf s) by (by subst s1).
    clear Es1. destruct (pdb_session s1) as [d1|] eqn:Hs1.
    + destruct (set_pdb_configuration_self s1 d1 Hs1)
        as (Hst' & Hconf & Hsess & Happ).
      exists (set_pdb_configuration s1 ConfSelf).
      split; [reflexivity|]. rewrite Hst', Hconf, Hsess.
      split; [exact Hst1|]. split; [exact Hc1|].
      intros d Hd. injection Hd as <-. exact Happ.
    + exists s1. rewrite Hs1.
      split; [reflexivity|]. split; [exact Hst1|]. split; [exact Hc1|].
      intros d Hd. discriminate Hd.
Qed.

Lemma pdb_configuration_reapplied_witness :
  (∀ d, pdb_session (add_pdb_session shell_pdb_then_manager 3) = Some d →
        conf_applied (add_pdb_session shell_pdb_then_manager 3)
          PDB_CONF_KEYS d)
  ∧ ∃ s', remove_pdb_session (shell_with [1; 3]) 3 = (Ok tt, s')
          ∧ ∀ d, pdb_session s' = Some d → conf_applied s' PDB_CONF_KEYS d.
Proof.
  split.
  - apply (proj1 (pdb_configuration_reapplied shell_pdb_then_manager 3)).
    vm_compute. discriminate.
  - destruct (proj2 (pdb_configuration_reapplied (shell_with [1; 3]) 3))
      as (s' & Hrem & _ & _ & Happ).
    + vm_compute. reflexivity.
    + exists s'. split; [exact Hrem | exact Happ].
Defined.

(** C10: [add_pdb_session] called with the session that [pdb_session]
    already returns changes nothing: no entry is appended to the stack and
    no object, the configuration included, is written. *)
Theorem add_pdb_session_current (s : SpyderShell) (pdb_obj : ref) :
  pdb_session s = Some pdb_obj →
  add_pdb_session s pdb_obj = s.
Proof.
  intros Hs. unfold add_pdb_session. by rewrite decide_True.
Qed.

Lemma add_pdb_session_current_witness :
  pdb_session shell_manager_then_pdb = Some 1
  ∧ add_pdb_session shell_manager_then_pdb 1 = shell_manager_then_pdb.
Proof.
  split; [reflexivity|]. apply add_pdb_session_current. reflexivity.
Defined.

(** While the same object pushed a second time when it is no longer the
    top-most debugger session is appended again. *)
Lemma add_pdb_session_not_current :
  _namespace_stack (add_pdb_session (shell_with [1; 3]) 1) = [1; 3; 1].
Proof. reflexivity. Qed.

(** *** Removing an entry that is not on top *)

(** With a non-empty stack, [remove_namespace_manager] called with an
    object other than the top entry logs the inconsistency and changes
    nothing else. *)
Lemma remove_namespace_manager_not_top s st top ns_manager :
  _namespace_stack s = st ++ [top] →
  top ≠ ns_manager →
  remove_namespace_manager s ns_manager
  = (Ok tt, logger_debug s "The namespace stack is inconsistent.").
Proof.
  intros Hst Hne. unfold remove_namespace_manager.
  rewrite Hst, list_top_snoc. by rewrite decide_False.
Qed.

(** [remove_pdb_session] called with an object other than the top-most
    debugger session changes nothing and does not raise, whatever the
    stack. *)
Lemma remove_pdb_session_not_current s pdb_obj :
  pdb_session s ≠ Some pdb_obj →
  remove_pdb_session s pdb_obj = (Ok tt, s).
Proof.
  intros Hne. unfold remove_pdb_session. by rewrite decide_False.
Qed.

(** [remove_pdb_session] called with the top-most debugger session while a
    namespace manager is above it pops the namespace manager. *)
Lemma remove_pdb_session_below_top :
  _namespace_stack shell_pdb_then_manager = [1; 2]
  ∧ fst (remove_pdb_session shell_pdb_then_manager 1) = Ok tt
  ∧ _namespace_stack (snd (remove_pdb_session shell_pdb_then_manager 1))
    = [1].
Proof. repeat split. Qed.

(** C2, where the code departs from it: on the empty stack
    [remove_namespace_manager] raises [IndexError], for every object it is
    called with, in place of logging and returning. *)
Theorem remove_namespace_manager_empty (s : SpyderShell) (ns_manager : ref) :
  _namespace_stack s = [] →
  remove_namespace_manager s ns_manager = (Raise IndexError, s).
Proof.
  intros Hst. unfold remove_namespace_manager. by rewrite Hst.
Qed.

Lemma remove_namespace_manager_empty_witness :
  remove_namespace_manager shell_empty 2 = (Raise IndexError, shell_empty).
Proof. apply remove_namespace_manager_empty. reflexivity. Defined.

(** ** Interrupt policy *)

Lemma fresh_ref_unused (h : gmap ref obj) : h !! fresh (dom h) = None.
Proof. apply not_elem_of_dom. apply is_fresh. Qed.

Lemma sessions_created_record s c :
  sessions_created (record_call s c)
  = sessions_created s + (if is_construction c then 1 else 0).
Proof.
  unfold sessions_created, record_call. simpl.
  rewrite List.filter_app, length_app. simpl.
  by destruct (is_construction c).
Qed.

(** Without a pending request the handler constructs no session. *)
Lemma sigint_handler_no_request s signum fr :
  _request_pdb_stop s = false →
  let s' := snd (spyderkernel_sigint_handler signum fr s) in
  sessions_created s' = sessions_created s
  ∧ dom (heap s') = dom (heap s)
  ∧ _request_pdb_stop s' = false
  ∧ _allow_kbdint s' = _allow_kbdint s
  ∧ _namespace_stack s' = _namespace_stack s.
Proof.
  intros Hflag. unfold spyderkernel_sigint_handler. rewrite Hflag.
  destruct (pdb_session s) as [session|] eqn:Hs.
  - destruct (pdb_session_is_pdb s session Hs) as [_ [p Hp]].
    unfold bind, pdb_get, pdb_interrupt, raise, ret. rewrite Hp.
    destruct (allow_kbdint p); [done|]. rewrite Hp.
    destruct (interrupting p); [done|]. rewrite Hp. simpl.
    repeat split; try done.
    + unfold sessions_created. simpl. rewrite List.filter_app, length_app.
      simpl. lia.
    + apply dom_insert_lookup_L. by rewrite Hp.
  - unfold raise, ret. by destruct (_allow_kbdint s) eqn:E.
Qed.

Lemma sigint_handler_request_run s signum fr :
  _request_pdb_stop s = true →
  spyderkernel_sigint_handler signum fr s =
  (Ok tt,
   mkShell (_namespace_stack s) false (_pdb_conf s) (_allow_kbdint s)
     (_SpyderShell__user_ns s) (magics_line s) (magics_cell s)
     (<[fresh (dom (heap s)) := OPdb (mkPdb None None true false ∅)]>
        (heap s))
     (logged s)
     (calls s ++ [CallSpyderPdb (fresh (dom (heap s)));
                  CallInterrupt (fresh (dom (heap s)));
                  CallSetTrace (fresh (dom (heap s))) fr])).
Proof.
  intros Hflag. unfold spyderkernel_sigint_handler. rewrite Hflag.
  remember (fresh (dom (heap s))) as d eqn:Ed.
  unfold bind, new_SpyderPdb. simpl. rewrite <- Ed.
  unfold pdb_interrupt. simpl. rewrite lookup_insert_eq.
  unfold pdb_set_trace, ret, record_call, with_heap, with_calls. simpl.
  by rewrite insert_insert_eq, <- !app_assoc.
Qed.

(** C3: with the request flag set, the handler clears the flag, constructs
    one debugger session, marks it interrupting, attaches it to the frame
    it was given, and returns; these are its only calls and the stack is
    left alone.  A second delivery, the flag not having been set again,
    constructs no further session. *)
Theorem sigint_handler_request (s : SpyderShell) (signum : Z)
    (fr : option frame) :
  _request_pdb_stop s = true →
  let d := fresh (dom (heap s)) in
  ∃ s', spyderkernel_sigint_handler signum fr s = (Ok tt, s')
        ∧ _request_pdb_stop s' = false
        ∧ heap s !! d = None
        ∧ heap s' = <[d := OPdb (mkPdb None None true false ∅)]> (heap s)
        ∧ calls s'
          = calls s ++ [CallSpyderPdb d; CallInterrupt d; CallSetTrace d fr]
        ∧ sessions_created s' = sessions_created s + 1
        ∧ _namespace_stack s' = _namespace_stack s
        ∧ ∀ signum2 fr2,
            sessions_created
              (snd (spyderkernel_sigint_handler signum2 fr2 s'))
            = sessions_created s + 1.
Proof.
  intros Hflag d. rewrite (sigint_handler_request_run s signum fr Hflag).
  fold d. eexists. split; [reflexivity|].
  match goal with |- context [sessions_created ?t = _] => set (s' := t) end.
  assert (Hcount : sessions_created s' = sessions_created s + 1).
  { unfold sessions_created, s'. cbn [calls].
    rewrite List.filter_app, length_app. simpl. lia. }
  split; [reflexivity|]. split; [apply fresh_ref_unused|].
  split; [reflexivity|]. split; [reflexivity|].
  split; [exact Hcount|]. split; [reflexivity|].
  intros signum2 fr2. rewrite <- Hcount.
  by apply sigint_handler_no_request.
Qed.

Lemma sigint_handler_request_witness :
  ∃ s', spyderkernel_sigint_handler 2 (Some sample_frame)
          (with_request_pdb_stop shell_empty true) = (Ok tt, s')
        ∧ _request_pdb_stop s' = false
        ∧ sessions_created s' = 1
        ∧ sessions_created
            (snd (spyderkernel_sigint_handler 2 (Some sample_frame) s')) = 1.
Proof.
  destruct (sigint_handler_request (with_request_pdb_stop shell_empty true)
              2 (Some sample_frame))
    as (s' & Hrun & Hflag & _ & _ & _ & Hone & _ & Hagain).
  - reflexivity.
  - exists s'. split; [exact Hrun|]. split; [exact Hflag|].
    split; [exact Hone | exact (Hagain 2%Z (Some sample_frame))].
Defined.

(** C4: without a pending request and with an active debugger session, the
    handler raises [KeyboardInterrupt] when the session allows it, raises
    it as well when the session is already interrupting, and otherwise
    calls the session's [interrupt], which marks it interrupting, and
    returns. *)
Theorem sigint_handler_debugging (s : SpyderShell) (signum : Z)
    (fr : option frame) (session : ref) :
  _request_pdb_stop s = false →
  pdb_session s = Some session →
  ∃ p, heap s !! session = Some (OPdb p)
       ∧ spyderkernel_sigint_handler signum fr s =
         if allow_kbdint p then (Raise KeyboardInterrupt, s)
         else if interrupting p then (Raise KeyboardInterrupt, s)
         else (Ok tt,
               record_call
                 (with_heap s
                    (<[session := OPdb (marked_interrupting p)]> (heap s)))
                 (CallInterrupt session)).
Proof.
  intros Hflag Hs.
  destruct (pdb_session_is_pdb s session Hs) as [_ [p Hp]].
  exists p. split; [exact Hp|].
  unfold spyderkernel_sigint_handler. rewrite Hflag, Hs.
  unfold bind, pdb_get, pdb_interrupt, raise, ret. rewrite Hp.
  destruct (allow_kbdint p); [reflexivity|]. rewrite Hp.
  destruct (interrupting p); [reflexivity|]. by rewrite Hp.
Qed.

Lemma sigint_handler_debugging_witness :
  fst (spyderkernel_sigint_handler 2 None shell_manager_then_pdb) = Ok tt
  ∧ fst (spyderkernel_sigint_handler 2 None
           (snd (spyderkernel_sigint_handler 2 None shell_manager_then_pdb)))
    = Raise KeyboardInterrupt.
Proof.
  destruct (sigint_handler_debugging shell_manager_then_pdb 2 None 1)
    as (p & Hp & Hrun); [reflexivity|reflexivity|].
  vm_compute in Hp. injection Hp as <-.
  cbn [allow_kbdint interrupting] in Hrun. rewrite Hrun.
  split; [reflexivity|]. vm_compute. reflexivity.
Defined.

(** *** The flag [_allow_kbdint] *)

Lemma set_pdb_configuration_key_allow_kbdint pdb_conf s key :
  _allow_kbdint (set_pdb_configuration_key pdb_conf s key) = _allow_kbdint s.
Proof.
  unfold set_pdb_configuration_key.
  destruct (conf_get s pdb_conf key) as [v|]; [|reflexivity].
  match goal with |- context [pdb_session ?t] => destruct (pdb_session t) end;
    [|reflexivity].
  match goal with |- context [conf_get ?t ?a ?k] =>
    destruct (conf_get t a k) end; reflexivity.
Qed.

Lemma set_pdb_configuration_allow_kbdint s pdb_conf :
  _allow_kbdint (set_pdb_configuration s pdb_conf) = _allow_kbdint s.
Proof.
  unfold set_pdb_configuration. generalize PDB_CONF_KEYS as keys.
  intros keys. revert s. induction keys as [|k keys IH]; intros s.
  - reflexivity.
  - simpl. rewrite IH. apply set_pdb_configuration_key_allow_kbdint.
Qed.

(** Neither the handler nor the operations on the stack write the flag. *)
Lemma allow_kbdint_kept s signum fr r :
  _allow_kbdint (snd (spyderkernel_sigint_handler signum fr s))
  = _allow_kbdint s
  ∧ _allow_kbdint (add_pdb_session s r) = _allow_kbdint s
  ∧ _allow_kbdint (snd (remove_pdb_session s r)) = _allow_kbdint s
  ∧ _allow_kbdint (add_namespace_manager s r) = _allow_kbdint s
  ∧ _allow_kbdint (snd (remove_namespace_manager s r)) = _allow_kbdint s.
Proof.
  split; [|split; [|split; [|split]]].
  - destruct (_request_pdb_stop s) eqn:Hflag.
    + by rewrite (sigint_handler_request_run s signum fr Hflag).
    + by apply sigint_handler_no_request.
  - unfold add_pdb_session. case_decide; [reflexivity|].
    by rewrite set_pdb_configuration_allow_kbdint.
  - unfold remove_pdb_session. case_decide; [|reflexivity].
    destruct (list_pop (_namespace_stack s)) as [[st x]|e]; [|reflexivity].
    destruct (pdb_session (with_stack s st)); [|reflexivity].
    simpl. by rewrite set_pdb_configuration_allow_kbdint.
  - reflexivity.
  - unfold remove_namespace_manager.
    destruct (list_top (_namespace_stack s)) as [top|e]; [|reflexivity].
    case_decide; [|reflexivity].
    by destruct (list_pop (_namespace_stack s)) as [[st x]|e].
Qed.

(** C5: without a pending request and without a debugger session, the
    handler raises [KeyboardInterrupt] when [_allow_kbdint] is set and is a
    no-op otherwise.  [run_code] sets the flag for the host's execution of
    the submitted code and clears it afterwards, whatever the outcome; a
    [KeyboardInterrupt] raised by that execution ends in a call of
    [showtraceback] and a normal return, and every other outcome is passed
    on.  The handler itself leaves the flag alone. *)
Theorem sigint_handler_idle (super_run_code : M value) (s : SpyderShell)
    (signum : Z) (fr : option frame) :
  (_request_pdb_stop s = false → pdb_session s = None →
   spyderkernel_sigint_handler signum fr s
   = (if _allow_kbdint s then Raise KeyboardInterrupt else Ok tt, s))
  ∧ _allow_kbdint (snd (spyderkernel_sigint_handler signum fr s))
    = _allow_kbdint s
  ∧ ∃ r s1,
      super_run_code (with_allow_kbdint s true) = (r, s1)
      ∧ _allow_kbdint (with_allow_kbdint s true) = true
      ∧ _allow_kbdint (snd (run_code super_run_code s)) = false
      ∧ (r = Raise KeyboardInterrupt →
         run_code super_run_code s
         = (Ok VNone,
            record_call (with_allow_kbdint s1 false) CallShowTraceback))
      ∧ (r ≠ Raise KeyboardInterrupt →
         run_code super_run_code s = (r, with_allow_kbdint s1 false)).
Proof.
  split; [|split].
  - intros Hflag Hs. unfold spyderkernel_sigint_handler.
    rewrite Hflag, Hs. by destruct (_allow_kbdint s).
  - apply (allow_kbdint_kept s signum fr 0).
  - unfold run_code.
    destruct (super_run_code (with_allow_kbdint s true)) as [r s1] eqn:Hrun.
    exists r, s1. split; [reflexivity|]. split; [reflexivity|].
    split; [|split].
    + destruct r as [v|[]]; reflexivity.
    + intros ->. reflexivity.
    + intros Hne. destruct r as [v|[]]; try reflexivity. congruence.
Qed.

Lemma sigint_handler_idle_witness :
  spyderkernel_sigint_handler 2 None shell_empty = (Ok tt, shell_empty)
  ∧ spyderkernel_sigint_handler 2 None (with_allow_kbdint shell_empty true)
    = (Raise KeyboardInterrupt, with_allow_kbdint shell_empty true)
  ∧ run_code interrupted_super shell_empty
    = (Ok VNone, record_call shell_empty CallShowTraceback).
Proof.
  split; [|split].
  - apply (proj1 (sigint_handler_idle interrupted_super shell_empty 2 None));
      reflexivity.
  - apply (proj1 (sigint_handler_idle interrupted_super
                    (with_allow_kbdint shell_empty true) 2 None));
      reflexivity.
  - destruct (proj2 (proj2 (sigint_handler_idle interrupted_super
                              shell_empty 2 None)))
      as (r & s1 & Hsuper & _ & _ & Hint & _).
    injection Hsuper as <- <-. by apply Hint.
Defined.

(** ** A copy of the current namespace *)

Lemma with_new_with_new s ns d d' :
  with_heap (with_new s ns d) (<[ns := ODict d']> (heap (with_new s ns d)))
  = with_new s ns d'.
Proof. unfold with_new, with_heap. simpl. by rewrite insert_insert_eq. Qed.

Lemma context_locals_scan_new h ns d fr l :
  h !! ns = None →
  context_locals_scan (<[ns := ODict d]> h) fr l = context_locals_scan h fr l.
Proof.
  intros Hns. induction l as [|a l IH]; [reflexivity|]. simpl.
  destruct (decide (ns = a)) as [->|Hne].
  - by rewrite lookup_insert_eq, Hns.
  - rewrite lookup_insert_ne by done. rewrite IH. reflexivity.
Qed.

Lemma user_ns_scan_new h ns d fb l :
  h !! ns = None →
  user_ns_scan (<[ns := ODict d]> h) fb l = user_ns_scan h fb l.
Proof.
  intros Hns. induction l as [|a l IH]; [reflexivity|]. simpl.
  destruct (decide (ns = a)) as [->|Hne].
  - by rewrite lookup_insert_eq, Hns.
  - rewrite lookup_insert_ne by done. rewrite IH. reflexivity.
Qed.

Lemma context_locals_with_new s ns d fr :
  heap s !! ns = None →
  context_locals (with_new s ns d) fr = context_locals s fr.
Proof.
  intros Hns. unfold context_locals. simpl.
  by rewrite context_locals_scan_new.
Qed.

Lemma user_ns_with_new s ns d :
  heap s !! ns = None → user_ns (with_new s ns d) = user_ns s.
Proof. intros Hns. unfold user_ns. simpl. by rewrite user_ns_scan_new. Qed.

Lemma read_dict_with_new s ns d e r x :
  heap s !! ns = None →
  heap s !! r = Some (ODict x) →
  read_dict e r (with_new s ns d) = (Ok x, with_new s ns d).
Proof.
  intros Hns Hr. unfold read_dict. simpl.
  rewrite lookup_insert_ne by congruence. by rewrite Hr.
Qed.

Lemma dict_update_with_new s ns d other :
  dict_update ns other (with_new s ns d) = (Ok tt, with_new s ns (other ∪ d)).
Proof.
  unfold dict_update. simpl. rewrite lookup_insert_eq.
  by rewrite with_new_with_new.
Qed.

Lemma update_from_with_new s ns d r x :
  heap s !! ns = None →
  heap s !! r = Some (ODict x) →
  update_from ns (Some r) (with_new s ns d) = (Ok tt, with_new s ns (x ∪ d)).
Proof.
  intros Hns Hr. unfold update_from, bind.
  rewrite (read_dict_with_new s ns d TypeError r x Hns Hr).
  apply dict_update_with_new.
Qed.

Lemma truthy_with_new s ns d r x :
  heap s !! ns = None →
  heap s !! r = Some (ODict x) →
  truthy (heap (with_new s ns d)) (Some r) = negb (bool_decide (x = ∅)).
Proof.
  intros Hns Hr. simpl. rewrite lookup_insert_ne by congruence.
  by rewrite Hr.
Qed.

(** *** Nothing but the new dictionary is written *)

Section Stays.

Variable s0 : SpyderShell.
Variable ns : ref.

Lemma stays_ret {A : Type} (Q : A → Prop) (a : A) :
  Q a → stays s0 ns Q (ret a).
Proof. intros Ha d. exists d. split; [done|]. by intros a' [= <-]. Qed.

Lemma stays_raise {A : Type} (Q : A → Prop) (e : exn) :
  stays s0 ns Q (raise e).
Proof. intros d. exists d. split; [done|]. intros a. discriminate. Qed.

Lemma stays_bind {A B : Type} (Q : B → Prop) (m : M A) (k : A → M B) :
  stays s0 ns any_result m → (∀ a, stays s0 ns Q (k a)) →
  stays s0 ns Q (bind m k).
Proof.
  intros Hm Hk d. unfold bind. destruct (Hm d) as (d1 & Hd1 & _).
  destruct (m (with_new s0 ns d)) as [[a|e] s1]; simpl in Hd1; subst s1.
  - apply Hk.
  - exists d1. split; [done|]. intros b. discriminate.
Qed.

Lemma stays_read_dict e r : stays s0 ns any_result (read_dict e r).
Proof.
  intros d. exists d. unfold read_dict.
  by destruct (heap (with_new s0 ns d) !! r) as [[]|].
Qed.

Lemma stays_dict_update other :
  stays s0 ns any_result (dict_update ns other).
Proof.
  intros d. rewrite dict_update_with_new. by eexists.
Qed.

Lemma stays_update_from v : stays s0 ns any_result (update_from ns v).
Proof.
  destruct v as [r|]; simpl.
  - apply stays_bind; [apply stays_read_dict|].
    intros x. apply stays_dict_update.
  - apply stays_raise.
Qed.

Lemma stays_read {A : Type} (f : SpyderShell → A) :
  stays s0 ns any_result (fun s => (Ok (f s), s)).
Proof. intros d. by exists d. Qed.

Lemma stays_if {A : Type} (Q : A → Prop) (c : SpyderShell → bool)
    (m1 m2 : M A) :
  stays s0 ns Q m1 → stays s0 ns Q m2 →
  stays s0 ns Q (fun s => if c s then m1 s else m2 s).
Proof.
  intros H1 H2 d. destruct (c (with_new s0 ns d)); [apply H1|apply H2].
Qed.

End Stays.

Lemma bind_ok {A B : Type} (m : M A) (k : A → M B) s a s1 :
  m s = (Ok a, s1) → bind m k s = k a s1.
Proof. intros H. unfold bind. by rewrite H. Qed.

Lemma new_dict_run g s :
  new_dict g s
  = (Ok (fresh (dom (heap s))), with_new s (fresh (dom (heap s))) g).
Proof. reflexivity. Qed.

Lemma stays_outcome s ns (m : M ref) d :
  heap s !! ns = None →
  stays s ns (fun r => r = ns) m →
  copy_outcome s (m (with_new s ns d)).
Proof.
  intros Hns Hm. destruct (Hm d) as (d' & Hst & Hres).
  destruct (m (with_new s ns d)) as [[r|e] s']; simpl in *; subst s'.
  - rewrite (Hres r eq_refl). eauto.
  - right. eauto.
Qed.

Lemma _get_current_namespace_outcome with_magics fr s :
  copy_outcome s (_get_current_namespace with_magics fr s).
Proof.
  pose proof (fresh_ref_unused (heap s)) as Hns.
  destruct fr as [f|]; unfold _get_current_namespace.
  - unfold bind at 1. unfold read_dict at 1.
    destruct (heap s !! f_globals f) as [[| |g|]|] eqn:E;
      try (by left).
    rewrite (bind_ok _ _ _ _ _ (new_dict_run g s)).
    apply stays_outcome; [done|].
    apply stays_bind; [apply stays_read|]. intros cl.
    apply stays_bind; [apply stays_update_from|]. intros _.
    by apply stays_ret.
  - rewrite (bind_ok _ _ _ _ _ (new_dict_run ∅ s)).
    apply stays_outcome; [done|].
    apply stays_bind; [apply stays_read|]. intros u.
    apply stays_bind; [apply stays_update_from|]. intros _.
    apply stays_bind; [apply stays_read|]. intros cl.
    apply stays_bind.
    { apply (stays_if s _ any_result (fun s => truthy (heap s) cl));
        [apply stays_update_from | by apply stays_ret]. }
    intros _. apply stays_bind.
    { destruct with_magics; [|by apply stays_ret].
      apply stays_bind; [apply stays_read|]. intros lm.
      apply stays_bind; [apply stays_read|]. intros cm.
      apply stays_bind; [apply stays_dict_update|]. intros _.
      apply stays_dict_update. }
    intros _. by apply stays_ret.
Qed.

(** *** The content of the copy *)

Lemma _get_current_namespace_frame with_magics f s g lr l :
  heap s !! f_globals f = Some (ODict g) →
  context_locals s (Some f) = Some lr →
  heap s !! lr = Some (ODict l) →
  _get_current_namespace with_magics (Some f) s
  = (Ok (fresh (dom (heap s))), with_new s (fresh (dom (heap s))) (l ∪ g)).
Proof.
  intros Hg Hcl Hl. pose proof (fresh_ref_unused (heap s)) as Hns.
  unfold _get_current_namespace.
  rewrite (bind_ok _ _ s g s) by (unfold read_dict; by rewrite Hg).
  rewrite (bind_ok _ _ _ _ _ (new_dict_run g s)).
  unfold bind at 1. unfold get_context_locals.
  rewrite context_locals_with_new by done. rewrite Hcl.
  by rewrite (bind_ok _ _ _ _ _ (update_from_with_new s _ g lr l Hns Hl)).
Qed.

Lemma _get_current_namespace_no_frame with_magics s u l :
  heap s !! user_ns s = Some (ODict u) →
  context_locals_content s l →
  _get_current_namespace with_magics None s
  = (Ok (fresh (dom (heap s))),
     with_new s (fresh (dom (heap s)))
       (if with_magics then magics_cell s ∪ (magics_line s ∪ (l ∪ u))
        else l ∪ u)).
Proof.
  intros Hu Hl. pose proof (fresh_ref_unused (heap s)) as Hns.
  unfold context_locals_content in Hl.
  set (ns := fresh (dom (heap s))) in *.
  unfold _get_current_namespace.
  rewrite (bind_ok _ _ _ _ _ (new_dict_run ∅ s)). fold ns.
  unfold bind at 1. unfold get_user_ns. rewrite user_ns_with_new by done.
  rewrite (bind_ok _ _ _ _ _ (update_from_with_new s ns ∅ _ u Hns Hu)).
  rewrite (right_id_L ∅ (∪) u).
  unfold bind at 1. unfold get_context_locals.
  rewrite context_locals_with_new by done.
  assert (Hstep :
    (if truthy (heap (with_new s ns u)) (context_locals s None)
     then update_from ns (context_locals s None) (with_new s ns u)
     else ret tt (with_new s ns u))
    = (Ok tt, with_new s ns (l ∪ u))).
  { destruct (context_locals s None) as [lr|].
    - rewrite (truthy_with_new s ns u lr l Hns Hl).
      case_bool_decide as He; simpl.
      + subst l. by rewrite (left_id_L ∅ (∪) u).
      + by apply update_from_with_new.
    - subst l. simpl. by rewrite (left_id_L ∅ (∪) u). }
  rewrite (bind_ok _ _ _ _ _ Hstep).
  destruct with_magics.
  - unfold bind at 1. unfold bind at 1. unfold bind at 1.
    rewrite (bind_ok _ _ _ _ _
               (dict_update_with_new s ns (l ∪ u) (magics_line s))).
    by rewrite dict_update_with_new.
  - reflexivity.
Qed.

Lemma with_new_heap s ns d :
  heap s !! ns = None →
  with_new s ns d = with_heap s (heap (with_new s ns d))
  ∧ heap (with_new s ns d) !! ns = Some (ODict d)
  ∧ ∀ o x, heap s !! o = Some x → heap (with_new s ns d) !! o = Some x.
Proof.
  intros Hns. split; [reflexivity|]. split.
  - simpl. apply lookup_insert_eq.
  - intros o x Ho. simpl. rewrite lookup_insert_ne by congruence. done.
Qed.

(** C9: [_get_current_namespace] leaves every object that existed before
    the call as it was, the frame's globals, the namespaces of the sessions
    on the stack and the fallback user namespace among them, and leaves
    the shell's own attributes as they were, whether it returns or raises.
    What it returns is a dictionary that did not exist before.  For a
    frame, it holds the frame's globals overlaid with the context locals
    of the frame; without a frame, it holds [user_ns] overlaid with the
    context locals and, when asked for, with the line magics and then the
    cell magics. *)
Theorem _get_current_namespace_copy (with_magics : bool) (fr : option frame)
    (s : SpyderShell) :
  (∀ r s', _get_current_namespace with_magics fr s = (r, s') →
     s' = with_heap s (heap s')
     ∧ (∀ o x, heap s !! o = Some x → heap s' !! o = Some x)
     ∧ ∀ ns, r = Ok ns →
             heap s !! ns = None ∧ ∃ d, heap s' !! ns = Some (ODict d))
  ∧ (∀ f g lr l,
       fr = Some f →
       heap s !! f_globals f = Some (ODict g) →
       context_locals s fr = Some lr →
       heap s !! lr = Some (ODict l) →
       ∃ ns s', _get_current_namespace with_magics fr s = (Ok ns, s')
                ∧ heap s' !! ns = Some (ODict (l ∪ g)))
  ∧ (∀ u l,
       fr = None →
       heap s !! user_ns s = Some (ODict u) →
       context_locals_content s l →
       ∃ ns s', _get_current_namespace with_magics fr s = (Ok ns, s')
                ∧ heap s' !! ns
                  = Some (ODict
                            (if with_magics
                             then magics_cell s ∪ (magics_line s ∪ (l ∪ u))
                             else l ∪ u))).
Proof.
  pose proof (fresh_ref_unused (heap s)) as Hns.
  split; [|split].
  - intros r s' Hrun.
    pose proof (_get_current_namespace_outcome with_magics fr s) as Hout.
    rewrite Hrun in Hout. destruct r as [ns|e]; simpl in Hout.
    + destruct Hout as (Hfresh & d & ->).
      destruct (with_new_heap s ns d Hfresh) as (H1 & H2 & H3).
      split; [exact H1|]. split; [exact H3|].
      intros ns' [= <-]. split; [exact Hfresh|]. by exists d.
    + destruct Hout as [->|(ns & d & Hfresh & ->)].
      * split; [by destruct s|]. split; [done|]. intros ns. discriminate.
      * destruct (with_new_heap s ns d Hfresh) as (H1 & _ & H3).
        split; [exact H1|]. split; [exact H3|]. intros ns'. discriminate.
  - intros f g lr l -> Hg Hcl Hl.
    rewrite (_get_current_namespace_frame with_magics f s g lr l Hg Hcl Hl).
    do 2 eexists. split; [reflexivity|].
    exact (proj1 (proj2 (with_new_heap s _ _ Hns))).
  - intros u l -> Hu Hl.
    rewrite (_get_current_namespace_no_frame with_magics s u l Hu Hl).
    do 2 eexists. split; [reflexivity|].
    exact (proj1 (proj2 (with_new_heap s _ _ Hns))).
Qed.

Lemma _get_current_namespace_copy_witness :
  (∃ ns s',
      _get_current_namespace false (Some sample_frame) shell_manager_then_pdb
      = (Ok ns, s')
      ∧ heap s' !! ns
        = Some (ODict ({["x" := VInt 5]}
                       ∪ {["x" := VInt 1; "y" := VInt 2]})))
  ∧ (∃ ns s',
        _get_current_namespace true None shell_empty = (Ok ns, s')
        ∧ heap s' !! ns
          = Some (ODict ({["time" := VRef 41]}
                         ∪ ({["run" := VRef 40]}
                            ∪ (∅ ∪ {["u" := VInt 4]}))))).
Proof.
  split.
  - apply (proj1 (proj2 (_get_current_namespace_copy false
                           (Some sample_frame) shell_manager_then_pdb))
             sample_frame _ 11 _ eq_refl);
      vm_compute; reflexivity.
  - apply (proj2 (proj2 (_get_current_namespace_copy true None shell_empty))
             _ ∅ eq_refl);
      vm_compute; reflexivity.
Defined.

(** ** Input cleanup *)

Lemma append_assoc (a b c : string) : (a +:+ b) +:+ c = a +:+ b +:+ c.
Proof.
  induction a as [|x a IH]; [reflexivity|].
  change (String x ((a +:+ b) +:+ c) = String x (a +:+ b +:+ c)).
  by rewrite IH.
Qed.

Lemma startswith_spec line p :
  startswith line p = true ↔ ∃ rest, line = p +:+ rest.
Proof.
  revert line. induction p as [|c p IH]; intros line; simpl.
  - split; [eauto|done].
  - destruct line as [|d line].
    + split; [discriminate|]. intros [rest H]. discriminate H.
    + rewrite andb_true_iff, IH. split.
      * intros [Hc [rest ->]]. apply Ascii.eqb_eq in Hc as ->. eauto.
      * intros [rest [= -> ->]]. split; [apply Ascii.eqb_refl|eauto].
Qed.

Lemma any_map_spec {A : Type} (f : A → bool) (l : list A) :
  any (map f l) = true ↔ ∃ x, x ∈ l ∧ f x = true.
Proof.
  induction l as [|a l IH]; simpl.
  - split; [discriminate|]. intros (x & Hx & _). by apply elem_of_nil in Hx.
  - rewrite orb_true_iff, IH. split.
    + intros [Ha|(x & Hx & Hf)].
      * exists a. split; [apply list_elem_of_here|done].
      * exists x. split; [by apply list_elem_of_further|done].
    + intros (x & Hx & Hf). apply elem_of_cons in Hx as [->|Hx]; eauto.
Qed.

Lemma elem_of_product {A B : Type} (l1 : list A) (l2 : list B) a b :
  (a, b) ∈ product l1 l2 ↔ a ∈ l1 ∧ b ∈ l2.
Proof.
  unfold product. rewrite !list_elem_of_In, in_flat_map. split.
  - intros (x & Hx & Hin). apply in_map_iff in Hin as (y & [= -> ->] & Hy).
    done.
  - intros [Ha Hb]. exists a. split; [done|]. apply in_map_iff. eauto.
Qed.

Lemma is_pkg_manager_call_spec line :
  is_pkg_manager_call line = true ↔ disallowed_call line.
Proof.
  unfold is_pkg_manager_call, disallowed_call. rewrite any_map_spec. split.
  - intros ([prefix command] & Hin & Hstart).
    apply elem_of_product in Hin as [Hp Hc].
    apply startswith_spec in Hstart as [rest ->].
    exists prefix, command, rest. by rewrite append_assoc.
  - intros (prefix & command & rest & Hp & Hc & ->).
    exists (prefix, command). split; [by apply elem_of_product|].
    apply startswith_spec. exists rest. by rewrite append_assoc.
Qed.

Lemma _do_input_cleanup_loop_clean lines rest :
  (∀ line, line ∈ rest → is_pkg_manager_call line = false) →
  _do_input_cleanup_loop lines rest = lines.
Proof.
  induction rest as [|line rest IH]; intros Hno; [reflexivity|]. simpl.
  rewrite (Hno line) by apply list_elem_of_here.
  apply IH. intros l Hl. apply Hno. by apply list_elem_of_further.
Qed.

Lemma _do_input_cleanup_loop_found lines rest line :
  line ∈ rest → is_pkg_manager_call line = true →
  _do_input_cleanup_loop lines rest = [warning_line].
Proof.
  intros Hin Hcall. induction rest as [|a rest IH].
  - by apply elem_of_nil in Hin.
  - simpl. destruct (is_pkg_manager_call a) eqn:Ea; [reflexivity|].
    apply IH. apply elem_of_cons in Hin as [->|Hin]; [congruence|done].
Qed.

(** C6: when a line of the input starts with one of the prefixes followed
    at once by the name of a disabled package manager, the result is the
    single line that prints the warning message; when no line does, the
    result is the input. *)
Theorem _do_input_cleanup_spec (lines : list string) :
  ((∃ line, line ∈ lines ∧ disallowed_call line) →
   _do_input_cleanup lines
   = ["print(" +:+ String double_quote _disable_pkg_managers_msg
      +:+ String double_quote ")"])
  ∧ ((∀ line, line ∈ lines → ¬ disallowed_call line) →
     _do_input_cleanup lines = lines).
Proof.
  unfold _do_input_cleanup. split.
  - intros (line & Hin & Hcall).
    apply (_do_input_cleanup_loop_found lines lines line Hin).
    by apply is_pkg_manager_call_spec.
  - intros Hno. apply _do_input_cleanup_loop_clean.
    intros line Hin. destruct (is_pkg_manager_call line) eqn:E; [|done].
    exfalso. apply (Hno line Hin). by apply is_pkg_manager_call_spec.
Qed.

Lemma _do_input_cleanup_spec_witness :
  _do_input_cleanup ["x = 1"; "%pip install x"] = [warning_line]
  ∧ _do_input_cleanup ["import pip"; "print(1)"] = ["import pip"; "print(1)"].
Proof.
  split.
  - apply (proj1 (_do_input_cleanup_spec ["x = 1"; "%pip install x"])).
    exists "%pip install x". split.
    + apply list_elem_of_further, list_elem_of_here.
    + exists "%", "pip", " install x". split; [apply list_elem_of_here|].
      split; [|reflexivity].
      do 3 apply list_elem_of_further. apply list_elem_of_here.
  - apply (proj2 (_do_input_cleanup_spec ["import pip"; "print(1)"])).
    intros line Hin Hcall. apply is_pkg_manager_call_spec in Hcall.
    apply elem_of_cons in Hin as [->|Hin]; [discriminate Hcall|].
    apply list_elem_of_singleton in Hin as ->. discriminate Hcall.
Defined.

(** ** Regular expressions *)

Lemma append_nil_r (a : string) : a +:+ EmptyString = a.
Proof.
  induction a as [|x a IH]; [reflexivity|].
  change (String x (a +:+ EmptyString) = String x a). by rewrite IH.
Qed.

Lemma append_nil_l (b : string) : EmptyString +:+ b = b.
Proof. reflexivity. Qed.

Lemma append_cons c (a b : string) : String c a +:+ b = String c (a +:+ b).
Proof. reflexivity. Qed.

Lemma append_eq_nil (a b : string) :
  a +:+ b = EmptyString → a = EmptyString ∧ b = EmptyString.
Proof.
  destruct a; [rewrite append_nil_l; by intros ->|].
  rewrite append_cons. discriminate.
Qed.

Lemma nullable_spec r : nullable r = true ↔ matches r EmptyString.
Proof.
  induction r as [| |c| |r1 IH1 r2 IH2|r1 IH1 r2 IH2|r IH|r IH]; simpl.
  - split; [discriminate|done].
  - done.
  - split; discriminate.
  - split; [discriminate|]. intros (c & _ & H). discriminate H.
  - rewrite andb_true_iff, IH1, IH2. split.
    + intros [H1 H2]. by exists EmptyString, EmptyString.
    + intros (s1 & s2 & Hs & H1 & H2). symmetry in Hs.
      apply append_eq_nil in Hs as [-> ->]. done.
  - by rewrite orb_true_iff, IH1, IH2.
  - split; [intros _; constructor|done].
  - exact IH.
Qed.

Lemma star_cons_inv (P : string → Prop) x c s :
  star P x → x = String c s →
  ∃ s1 s2, s = s1 +:+ s2 ∧ P (String c s1) ∧ star P s2.
Proof.
  intros Hstar. induction Hstar as [|s1 s2 H1 H2 IH]; [discriminate|].
  destruct s1 as [|d s1]; [exact IH|].
  intros [= -> <-]. eauto.
Qed.

Lemma deriv_spec c r : ∀ s, matches (deriv c r) s ↔ matches r (String c s).
Proof.
  induction r as [| |d| |r1 IH1 r2 IH2|r1 IH1 r2 IH2|r IH|r IH];
    intros s; simpl.
  - done.
  - split; [done|discriminate].
  - destruct (Ascii.eqb c d) eqn:E; simpl.
    + apply Ascii.eqb_eq in E as ->. split; [by intros ->|by intros [= ->]].
    + split; [done|]. intros [= -> _]. by rewrite Ascii.eqb_refl in E.
  - destruct (Ascii.eqb c newline) eqn:E; simpl.
    + apply Ascii.eqb_eq in E as ->. split; [done|].
      intros (c & Hc & [= <- _]). done.
    + split.
      * intros ->. exists c. split; [|done]. intros ->.
        by rewrite Ascii.eqb_refl in E.
      * by intros (c' & _ & [= _ ->]).
  - split.
    + intros [(s1 & s2 & -> & H1 & H2)|H].
      * exists (String c s1), s2. split; [done|]. by rewrite <- IH1.
      * destruct (nullable r1) eqn:En; [|done].
        exists EmptyString, (String c s). split; [done|].
        split; [by apply nullable_spec|by apply IH2].
    + intros (s1 & s2 & Hs & H1 & H2). destruct s1 as [|d s1].
      * right. rewrite append_nil_l in Hs. subst s2.
        apply nullable_spec in H1. rewrite H1. by apply IH2.
      * rewrite append_cons in Hs. injection Hs as <- ->.
        left. exists s1, s2.
        split; [done|]. by rewrite IH1.
  - by rewrite IH1, IH2.
  - split.
    + intros (s1 & s2 & -> & H1 & H2).
      apply (star_app _ (String c s1) s2); [by apply IH|done].
    + intros H. destruct (star_cons_inv _ _ c s H eq_refl)
        as (s1 & s2 & -> & H1 & H2).
      exists s1, s2. split; [done|]. by rewrite IH.
  - apply IH.
Qed.

(** [re.match] succeeds exactly when the pattern matches a prefix of the
    line. *)
Lemma re_match_spec line : ∀ r,
  re_match r line = true ↔ ∃ p rest, line = p +:+ rest ∧ matches r p.
Proof.
  induction line as [|c line IH]; intros r; simpl;
    rewrite orb_true_iff, nullable_spec.
  - split.
    + intros [H|H]; [|discriminate]. by exists EmptyString, EmptyString.
    + intros (p & rest & Hs & Hp). symmetry in Hs.
      apply append_eq_nil in Hs as [-> _]. by left.
  - rewrite IH. split.
    + intros [H|(p & rest & -> & Hp)].
      * by exists EmptyString, (String c line).
      * exists (String c p), rest. split; [done|]. by apply deriv_spec.
    + intros (p & rest & Hs & Hp). destruct p as [|d p]; [by left|].
      rewrite append_cons in Hs. injection Hs as <- ->.
      right. exists p, rest.
      split; [done|]. by apply deriv_spec.
Qed.

Lemma matches_lit s x : matches (lit s) x ↔ x = s.
Proof.
  revert x. induction s as [|c s IH]; intros x; simpl; [done|]. split.
  - intros (s1 & s2 & -> & -> & H2). apply IH in H2 as ->. done.
  - intros ->. exists (String c EmptyString), s. split; [done|]. split; [done|].
    by apply IH.
Qed.

Lemma matches_any_run a : matches (RStar RDot) a ↔ no_newline a.
Proof.
  simpl. split.
  - intros H. induction H as [|s1 s2 (c & Hc & ->) H2 IH]; simpl; done.
  - induction a as [|c a IH]; simpl; [constructor|].
    intros [Hc Ha]. apply (star_app _ (String c EmptyString) a); [|by apply IH].
    by exists c.
Qed.

(** ** Traceback filtering *)

Lemma re_match_verbose line :
  re_match pattern_verbose line = true ↔ file_line_verbose line.
Proof.
  rewrite re_match_spec. unfold pattern_verbose, file_line_verbose. split.
  - intros (p & rest & -> & s1 & s2 & -> & H1 & _).
    apply matches_lit in H1 as ->. exists (s2 +:+ rest).
    by rewrite append_assoc.
  - intros [rest ->]. exists "File ", rest. split; [done|].
    exists "File ", EmptyString. split; [done|].
    split; [by apply matches_lit|constructor].
Qed.

Lemma re_match_plain line :
  re_match pattern_plain line = true ↔ file_line_plain line.
Proof.
  rewrite re_match_spec. unfold pattern_plain, file_line_plain. split.
  - intros (p & rest & -> & s1 & s2 & -> & H1 & a & s3 & -> & Ha
            & s4 & b & -> & H4 & _).
    apply matches_lit in H1 as ->. apply matches_lit in H4 as ->.
    exists a, (b +:+ rest). split; [by apply matches_any_run|].
    by rewrite !append_assoc.
  - intros (a & rest & Ha & ->).
    exists (String escape "[" +:+ a +:+ "  File "), rest.
    split; [by rewrite !append_assoc|].
    exists (String escape "["), (a +:+ "  File ").
    split; [done|]. split; [by apply matches_lit|].
    exists a, "  File ". split; [done|].
    split; [by apply matches_any_run|].
    exists "  File ", EmptyString. split; [done|].
    split; [by apply matches_lit|constructor].
Qed.

Lemma str_in_spec needle hay :
  str_in needle hay = true ↔ ∃ before after, hay = before +:+ needle +:+ after.
Proof.
  induction hay as [|c hay IH]; simpl; rewrite orb_true_iff, startswith_spec.
  - split.
    + intros [[after H]|H]; [|discriminate]. by exists EmptyString, after.
    + intros (before & after & H). symmetry in H.
      apply append_eq_nil in H as [_ H].
      apply append_eq_nil in H as [-> ->]. left. by exists EmptyString.
  - rewrite IH. split.
    + intros [[after H]|(before & after & ->)].
      * by exists EmptyString, after.
      * by exists (String c before), after.
    + intros (before & after & H). destruct before as [|d before].
      * left. by exists after.
      * rewrite append_cons in H. injection H as <- ->. right. eauto.
Qed.

Lemma skipped_spec locations line :
  skipped locations line = true ↔ internal_file_line locations line.
Proof.
  unfold skipped, internal_file_line, names_location.
  rewrite andb_true_iff, orb_true_iff, re_match_verbose, re_match_plain.
  rewrite any_map_spec. split.
  - intros [Hfile (location & Hin & Hloc)]. split; [done|].
    apply str_in_spec in Hloc as (before & after & ->). eauto.
  - intros [Hfile (location & before & after & Hin & ->)]. split; [done|].
    exists location. split; [done|]. apply str_in_spec. eauto.
Qed.

Lemma _showtraceback_loop_app locations stb : ∀ spyder_stb,
  _showtraceback_loop locations spyder_stb stb
  = spyder_stb ++ _showtraceback_loop locations [] stb.
Proof.
  induction stb as [|line stb IH]; intros acc; simpl.
  - by rewrite app_nil_r.
  - destruct (skipped locations line); [apply IH|].
    rewrite (IH (acc ++ [line])), (IH [line]). by rewrite <- app_assoc.
Qed.

Lemma _showtraceback_loop_without locations stb :
  without (internal_file_line locations) stb
    (_showtraceback_loop locations [] stb).
Proof.
  induction stb as [|line stb IH]; simpl; [constructor|].
  destruct (skipped locations line) eqn:E.
  - apply without_drop; [by apply skipped_spec|done].
  - rewrite _showtraceback_loop_app. apply without_keep; [|done].
    intros H. apply skipped_spec in H. congruence.
Qed.

(** C7, as the code has it: for [BdbQuit] the traceback that is handed on
    is not the empty list but the list of one line, the empty string,
    whatever the given traceback.  For any other exception it is the given
    traceback without the lines that are file-location lines, verbose or
    plain, and contain one of the installation paths; every other line is
    kept, in its place. *)
Theorem _showtraceback_filtered (locations stb : list string) :
  _showtraceback locations BdbQuit stb = [EmptyString]
  ∧ ∀ name,
      without (internal_file_line locations) stb
        (_showtraceback locations (OtherException name) stb).
Proof.
  split; [reflexivity|]. intros name. apply _showtraceback_loop_without.
Qed.

(** For [BdbQuit] the filtered traceback is not empty: it has one line. *)
Lemma _showtraceback_bdbquit_counterexample :
  _showtraceback (_package_locations "/") BdbQuit
    [ "Traceback (most recent call last)";
      "File /home/user/script.py";
      "BdbQuit" ] ≠ []
  ∧ length (_showtraceback (_package_locations "/") BdbQuit
              [ "Traceback (most recent call last)";
                "File /home/user/script.py";
                "BdbQuit" ]) = 1.
Proof. split; [discriminate|reflexivity]. Qed.

(** The filtered traceback on a sample: the two lines that name a file
    under the installation path are dropped, in either style; the line of
    user code and the line that only mentions the path are kept. *)
Lemma _showtraceback_sample :
  _showtraceback (_package_locations "/") (OtherException "ValueError")
    [ "File /usr/lib/site-packages/spyder_kernels/console/shell.py";
      "File /home/user/script.py";
      String escape "[0;32m  File /opt/site-packages/spyder_kernels/a.py";
      "see site-packages/spyder_kernels" ]
  = [ "File /home/user/script.py"; "see site-packages/spyder_kernels" ].
Proof. reflexivity. Qed.

(** ** Reading the stack *)

Lemma pdb_session_scan_skip h l1 l2 :
  (∀ r, r ∈ l1 → is_pdb h r = false) →
  pdb_session_scan h (l1 ++ l2) = pdb_session_scan h l2.
Proof.
  induction l1 as [|a l1 IH]; intros Hno; [reflexivity|]. simpl.
  pose proof (Hno a (list_elem_of_here _ _)) as Ha. unfold is_pdb in Ha.
  destruct (h !! a) as [[]|]; try discriminate;
    apply IH; intros r Hr; apply Hno; by apply list_elem_of_further.
Qed.

Lemma pdb_session_scan_split h l d :
  pdb_session_scan h l = Some d →
  ∃ l1 l2, l = l1 ++ d :: l2 ∧ is_pdb h d = true
           ∧ ∀ r, r ∈ l1 → is_pdb h r = false.
Proof.
  induction l as [|a l IH]; [discriminate|]. simpl.
  destruct (h !! a) as [o|] eqn:E.
  - destruct o as [p|m|x|].
    + intros [= <-]. exists [], l. split; [done|].
      split; [unfold is_pdb; by rewrite E|].
      intros r Hr. by apply elem_of_nil in Hr.
    + intros H. destruct (IH H) as (l1 & l2 & -> & Hd & Hno).
      exists (a :: l1), l2. split; [done|]. split; [done|].
      intros r Hr. apply elem_of_cons in Hr as [->|Hr]; [|by apply Hno].
      unfold is_pdb. by rewrite E.
    + intros H. destruct (IH H) as (l1 & l2 & -> & Hd & Hno).
      exists (a :: l1), l2. split; [done|]. split; [done|].
      intros r Hr. apply elem_of_cons in Hr as [->|Hr]; [|by apply Hno].
      unfold is_pdb. by rewrite E.
    + intros H. destruct (IH H) as (l1 & l2 & -> & Hd & Hno).
      exists (a :: l1), l2. split; [done|]. split; [done|].
      intros r Hr. apply elem_of_cons in Hr as [->|Hr]; [|by apply Hno].
      unfold is_pdb. by rewrite E.
  - intros H. destruct (IH H) as (l1 & l2 & -> & Hd & Hno).
    exists (a :: l1), l2. split; [done|]. split; [done|].
    intros r Hr. apply elem_of_cons in Hr as [->|Hr]; [|by apply Hno].
    unfold is_pdb. by rewrite E.
Qed.

Lemma pdb_session_scan_None h l :
  pdb_session_scan h l = None ↔ ∀ r, r ∈ l → is_pdb h r = false.
Proof.
  split.
  - induction l as [|a l IH]; intros H r Hr; [by apply elem_of_nil in Hr|].
    simpl in H. unfold is_pdb.
    apply elem_of_cons in Hr as [->|Hr].
    + by destruct (h !! a) as [[]|].
    + apply IH; [|done]. by destruct (h !! a) as [[]|].
  - intros Hno. rewrite <- (app_nil_r l). by rewrite pdb_session_scan_skip.
Qed.

(** X1: [pdb_session] is the debugger session nearest to the top of the
    stack: the session [d] is returned exactly when the stack splits into
    older entries, [d], and newer entries none of which is a debugger
    session; and [None] exactly when the stack holds no debugger session. *)
Theorem pdb_session_topmost (s : SpyderShell) :
  (∀ d, pdb_session s = Some d ↔
        ∃ older newer,
          _namespace_stack s = older ++ d :: newer
          ∧ is_pdb (heap s) d = true
          ∧ ∀ r, r ∈ newer → is_pdb (heap s) r = false)
  ∧ (pdb_session s = None ↔
     ∀ r, r ∈ _namespace_stack s → is_pdb (heap s) r = false).
Proof.
  unfold pdb_session. split.
  - intros d. split.
    + intros H. apply pdb_session_scan_split in H
        as (l1 & l2 & Hrev & Hd & Hno).
      exists (rev l2), (rev l1). split; [|split; [done|]].
      * rewrite <- (rev_involutive (_namespace_stack s)), Hrev.
        rewrite rev_app_distr. simpl. by rewrite <- app_assoc.
      * intros r Hr. apply Hno. by rewrite elem_of_rev in Hr.
    + intros (older & newer & Hst & Hd & Hno).
      rewrite Hst, rev_app_distr. simpl. rewrite <- app_assoc.
      rewrite pdb_session_scan_skip.
      * simpl. unfold is_pdb in Hd.
        by destruct (heap s !! d) as [[]|].
      * intros r Hr. apply Hno. by rewrite elem_of_rev in Hr.
  - rewrite pdb_session_scan_None. split.
    + intros H r Hr. apply H. by rewrite elem_of_rev.
    + intros H r Hr. apply H. by rewrite elem_of_rev in Hr.
Qed.

Lemma is_debugging_scan_spec h l :
  is_debugging_scan h l = true ↔ ∃ r, r ∈ l ∧ has_frame h r.
Proof.
  induction l as [|a l IH]; simpl.
  - split; [discriminate|]. intros (r & Hr & _). by apply elem_of_nil in Hr.
  - split.
    + intros H. destruct (h !! a) as [o|] eqn:E.
      * destruct o as [p|m|x|].
        -- destruct (curframe p) as [fr|] eqn:Ec.
           ++ exists a. split; [apply list_elem_of_here|]. by exists p, fr.
           ++ apply IH in H as (r & Hr & Hf). exists r.
              split; [by apply list_elem_of_further|done].
        -- apply IH in H as (r & Hr & Hf). exists r.
           split; [by apply list_elem_of_further|done].
        -- apply IH in H as (r & Hr & Hf). exists r.
           split; [by apply list_elem_of_further|done].
        -- apply IH in H as (r & Hr & Hf). exists r.
           split; [by apply list_elem_of_further|done].
      * apply IH in H as (r & Hr & Hf). exists r.
        split; [by apply list_elem_of_further|done].
    + intros (r & Hr & p & fr & Hp & Hc).
      apply elem_of_cons in Hr as [<-|Hr].
      * by rewrite Hp, Hc.
      * assert (is_debugging_scan h l = true) as Hl.
        { apply IH. exists r. split; [done|]. by exists p, fr. }
        rewrite Hl.
        destruct (h !! a) as [[p'| | |]|]; [destruct (curframe p')|..]; done.
Qed.

(** X2: [is_debugging] holds exactly when some entry of the stack, at any
    depth, is a debugger session that has a current frame. *)
Theorem is_debugging_spec (s : SpyderShell) :
  is_debugging s = true ↔
  ∃ r, r ∈ _namespace_stack s ∧ has_frame (heap s) r.
Proof.
  unfold is_debugging. rewrite is_debugging_scan_spec. split.
  - intros (r & Hr & Hf). exists r.
    split; [by rewrite elem_of_rev in Hr|done].
  - intros (r & Hr & Hf). exists r. split; [by rewrite elem_of_rev|done].
Qed.

(** X3: when [_pdb_frame] gives a frame, [is_debugging] holds; and when
    [is_debugging] holds there is a debugger session.  The converse of the
    first part fails: a debugger session without a frame above one with a
    frame hides that frame from [_pdb_frame]. *)
Theorem _pdb_frame_is_debugging (s : SpyderShell) :
  (∀ fr, _pdb_frame s = Some fr → is_debugging s = true)
  ∧ (is_debugging s = true → ∃ d, pdb_session s = Some d)
  ∧ is_debugging (shell_with [1; 3]) = true
  ∧ _pdb_frame (shell_with [1; 3]) = None.
Proof.
  split; [|split; [|split; reflexivity]].
  - intros fr. unfold _pdb_frame.
    destruct (pdb_session s) as [d|] eqn:Hs; [|discriminate].
    destruct (pdb_session_is_pdb s d Hs) as [Hin [p Hp]]. rewrite Hp.
    intros Hc. unfold is_debugging. apply is_debugging_scan_spec.
    exists d. split; [by rewrite elem_of_rev|]. by exists p, fr.
  - unfold is_debugging. intros H.
    apply is_debugging_scan_spec in H as (r & Hr & p & fr & Hp & _).
    destruct (pdb_session s) as [d|] eqn:Hs; [eauto|].
    unfold pdb_session in Hs.
    pose proof (proj1 (pdb_session_scan_None _ _) Hs r Hr) as Hno.
    unfold is_pdb in Hno. by rewrite Hp in Hno.
Qed.

Lemma _pdb_frame_is_debugging_witness :
  is_debugging shell_manager_then_pdb = true.
Proof.
  apply (proj1 (_pdb_frame_is_debugging shell_manager_then_pdb) sample_frame).
  reflexivity.
Defined.

Lemma pdb_session_topmost_witness :
  pdb_session shell_pdb_then_manager = Some 1.
Proof.
  apply (proj1 (pdb_session_topmost shell_pdb_then_manager)).
  exists [], [2]. split; [reflexivity|]. split; [reflexivity|].
  intros r Hr. apply list_elem_of_singleton in Hr as ->. reflexivity.
Defined.

Lemma is_debugging_spec_witness :
  is_debugging shell_pdb_then_manager = true.
Proof.
  apply is_debugging_spec. exists 1. split; [apply list_elem_of_here|].
  exists (mkPdb (Some sample_frame) (Some 11) false false ∅), sample_frame.
  split; reflexivity.
Defined.

(** *** Local scope *)

Lemma context_locals_scan_skip h l1 l2 :
  (∀ r, r ∈ l1 → ¬ resolving h r) →
  context_locals_scan h None (l1 ++ l2) = context_locals_scan h None l2.
Proof.
  induction l1 as [|a l1 IH]; intros Hno; [reflexivity|].
  assert (Hrest : ∀ r, r ∈ l1 → ¬ resolving h r).
  { intros r Hr. apply Hno. by apply list_elem_of_further. }
  assert (Ha : ¬ resolving h a) by (apply Hno; apply list_elem_of_here).
  simpl. destruct (h !! a) as [[p|m|d|]|] eqn:E; auto.
  - destruct (curframe p) as [fr|] eqn:Ec; auto.
    exfalso. apply Ha. exists (f_globals fr). left. eauto.
  - exfalso. apply Ha. exists (ns_globals m). right. eauto.
Qed.

(** X4: without a frame argument, [user_ns] and [context_locals] are decided
    by the same entry of the stack, the most recently pushed one that is a
    debugger session with a current frame or a namespace manager: the
    globals and the locals always come from one context.  When the stack
    holds no such entry, [context_locals] gives [None] and [user_ns] the
    fallback. *)
Theorem user_ns_context_locals_agree (s : SpyderShell) :
  (∀ older r newer,
      _namespace_stack s = older ++ r :: newer →
      resolving (heap s) r →
      (∀ r', r' ∈ newer → ¬ resolving (heap s) r') →
      ∃ g l, resolves (heap s) r g ∧ resolves_locals (heap s) r l
             ∧ user_ns s = g ∧ context_locals s None = l)
  ∧ ((∀ r, r ∈ _namespace_stack s → ¬ resolving (heap s) r) →
     user_ns s = _SpyderShell__user_ns s ∧ context_locals s None = None).
Proof.
  unfold user_ns, context_locals. split.
  - intros older r newer Hst [g Hres] Hnew.
    assert (Hrev : ∀ r', r' ∈ rev newer → ¬ resolving (heap s) r').
    { intros r' Hr'. apply Hnew. by rewrite elem_of_rev in Hr'. }
    rewrite Hst, rev_app_distr. simpl. rewrite <- app_assoc. simpl.
    rewrite user_ns_scan_skip, context_locals_scan_skip by done.
    rewrite (user_ns_scan_resolves _ _ r g _ Hres).
    exists g. destruct Hres as [(p & fr & Hp & Hc & ->)|(m & Hm & ->)].
    + exists (curframe_locals p). simpl. rewrite Hp, Hc.
      split; [left; eauto|]. split; [left; eauto|]. done.
    + exists (ns_locals m). simpl. rewrite Hm.
      split; [right; eauto|]. split; [right; eauto|]. done.
  - intros Hno.
    assert (Hrev : ∀ r, r ∈ rev (_namespace_stack s) →
                        ¬ resolving (heap s) r).
    { intros r Hr. apply Hno. by rewrite elem_of_rev in Hr. }
    rewrite <- (app_nil_r (rev (_namespace_stack s))).
    by rewrite user_ns_scan_skip, context_locals_scan_skip.
Qed.

Lemma user_ns_context_locals_agree_witness :
  ∃ g l, resolves (heap shell_pdb_then_manager) 2 g
         ∧ resolves_locals (heap shell_pdb_then_manager) 2 l
         ∧ user_ns shell_pdb_then_manager = g
         ∧ context_locals shell_pdb_then_manager None = l.
Proof.
  apply (proj1 (user_ns_context_locals_agree shell_pdb_then_manager)
           [1] 2 []).
  - reflexivity.
  - exists 20. right. by exists (mkNsm 20 (Some 21)).
  - intros r' Hr'. by apply elem_of_nil in Hr'.
Defined.

Lemma context_locals_scan_frame_skip h f l1 l2 :
  (∀ r, r ∈ l1 → ¬ stopped_at h f r) →
  context_locals_scan h (Some f) (l1 ++ l2)
  = context_locals_scan h (Some f) l2.
Proof.
  induction l1 as [|a l1 IH]; intros Hno; [reflexivity|].
  assert (Hrest : ∀ r, r ∈ l1 → ¬ stopped_at h f r).
  { intros r Hr. apply Hno. by apply list_elem_of_further. }
  assert (Ha : ¬ stopped_at h f a) by (apply Hno; apply list_elem_of_here).
  simpl. destruct (h !! a) as [[p|m|d|]|] eqn:E; auto.
  destruct (curframe p) as [cf|] eqn:Ec; auto.
  case_decide as Hf; auto.
  exfalso. apply Ha. exists p. by subst cf.
Qed.

(** X5: with a frame argument, [context_locals] ignores the namespace
    managers and the debugger sessions stopped elsewhere: it gives the
    [curframe_locals] of the most recently pushed debugger session that is
    stopped at that very frame, and the frame's own [f_locals] when no
    debugger session on the stack is stopped at it. *)
Theorem context_locals_frame (s : SpyderShell) (f : frame) :
  (∀ older d newer p,
      _namespace_stack s = older ++ d :: newer →
      heap s !! d = Some (OPdb p) → curframe p = Some f →
      (∀ r, r ∈ newer → ¬ stopped_at (heap s) f r) →
      context_locals s (Some f) = curframe_locals p)
  ∧ ((∀ r, r ∈ _namespace_stack s → ¬ stopped_at (heap s) f r) →
     context_locals s (Some f) = Some (f_locals f)).
Proof.
  unfold context_locals. split.
  - intros older d newer p Hst Hp Hc Hnew.
    rewrite Hst, rev_app_distr. simpl. rewrite <- app_assoc. simpl.
    rewrite context_locals_scan_frame_skip.
    + simpl. rewrite Hp, Hc. by rewrite decide_True.
    + intros r Hr. apply Hnew. by rewrite elem_of_rev in Hr.
  - intros Hno.
    rewrite <- (app_nil_r (rev (_namespace_stack s))).
    rewrite context_locals_scan_frame_skip; [reflexivity|].
    intros r Hr. apply Hno. by rewrite elem_of_rev in Hr.
Qed.

Lemma context_locals_frame_witness :
  context_locals shell_pdb_then_manager (Some sample_frame) = Some 11
  ∧ context_locals (shell_with [2; 3]) (Some sample_frame) = Some 11.
Proof.
  split.
  - apply (proj1 (context_locals_frame shell_pdb_then_manager sample_frame)
             [] 1 [2] (mkPdb (Some sample_frame) (Some 11) false false ∅));
      try reflexivity.
    intros r Hr. apply list_elem_of_singleton in Hr as ->.
    intros (p & Hp & _). vm_compute in Hp. discriminate Hp.
  - apply (proj2 (context_locals_frame (shell_with [2; 3]) sample_frame)).
    intros r Hr (p & Hp & Hc).
    apply elem_of_cons in Hr as [->|Hr].
    + vm_compute in Hp. discriminate Hp.
    + apply list_elem_of_singleton in Hr as ->.
      vm_compute in Hp. injection Hp as <-. discriminate Hc.
Defined.

(** ** The persisted configuration *)

Lemma set_pdb_configuration_key_dict d s key :
  set_pdb_configuration_key (ConfDict d) s key =
  match d !! key with
  | Some v =>
      match pdb_session s with
      | Some session =>
          with_heap (with_pdb_conf s (<[key := v]> (_pdb_conf s)))
            (setattr (heap s) session key v)
      | None => with_pdb_conf s (<[key := v]> (_pdb_conf s))
      end
  | None => s
  end.
Proof.
  unfold set_pdb_configuration_key. simpl.
  destruct (d !! key) as [v|]; reflexivity.
Qed.

(** An iteration changes the configuration and the attributes of the
    active session, and nothing else. *)
Lemma set_pdb_configuration_key_fields pdb_conf s key :
  ∃ c h,
    set_pdb_configuration_key pdb_conf s key = with_heap (with_pdb_conf s c) h
    ∧ (∀ r, is_pdb h r = is_pdb (heap s) r)
    ∧ c = match conf_get s pdb_conf key with
          | Some v => <[key := v]> (_pdb_conf s)
          | None => _pdb_conf s
          end.
Proof.
  unfold set_pdb_configuration_key.
  destruct (conf_get s pdb_conf key) as [v|] eqn:E.
  - set (s1 := with_pdb_conf s (<[key := v]> (_pdb_conf s))).
    destruct (pdb_session s1) as [session|].
    + destruct (conf_get s1 pdb_conf key) as [v1|].
      * exists (<[key := v]> (_pdb_conf s)), (setattr (heap s) session key v1).
        split; [reflexivity|]. split; [|reflexivity].
        intros r. apply setattr_is_pdb.
      * exists (<[key := v]> (_pdb_conf s)), (heap s). by destruct s.
    + exists (<[key := v]> (_pdb_conf s)), (heap s). by destruct s.
  - exists (_pdb_conf s), (heap s). by destruct s.
Qed.

Lemma pdb_session_fields s c h :
  (∀ r, is_pdb h r = is_pdb (heap s) r) →
  pdb_session (with_heap (with_pdb_conf s c) h) = pdb_session s.
Proof. intros H. unfold pdb_session. simpl. by apply pdb_session_scan_ext. Qed.

Lemma set_pdb_configuration_fold_fields pdb_conf keys : ∀ s,
  ∃ c h,
    fold_left (set_pdb_configuration_key pdb_conf) keys s
    = with_heap (with_pdb_conf s c) h
    ∧ ∀ r, is_pdb h r = is_pdb (heap s) r.
Proof.
  induction keys as [|k keys IH]; intros s; simpl.
  - exists (_pdb_conf s), (heap s). by destruct s.
  - destruct (set_pdb_configuration_key_fields pdb_conf s k)
      as (c1 & h1 & -> & Hk1 & _).
    destruct (IH (with_heap (with_pdb_conf s c1) h1)) as (c & h & -> & Hk).
    exists c, h. split; [reflexivity|].
    intros r. rewrite Hk. simpl. apply Hk1.
Qed.

Lemma set_pdb_configuration_fields s pdb_conf :
  ∃ c h, set_pdb_configuration s pdb_conf = with_heap (with_pdb_conf s c) h
         ∧ ∀ r, is_pdb h r = is_pdb (heap s) r.
Proof.
  unfold set_pdb_configuration. apply set_pdb_configuration_fold_fields.
Qed.

Lemma set_pdb_configuration_dict_fold d keys : ∀ s,
  _pdb_conf (fold_left (set_pdb_configuration_key (ConfDict d)) keys s)
  = fold_left (conf_merge d) keys (_pdb_conf s).
Proof.
  induction keys as [|k keys IH]; intros s; [reflexivity|]. simpl.
  rewrite IH. f_equal. rewrite set_pdb_configuration_key_dict.
  unfold conf_merge. destruct (d !! k) as [v|]; [|reflexivity].
  by destruct (pdb_session s).
Qed.

Lemma lookup_fold_conf_merge d keys : ∀ c key,
  fold_left (conf_merge d) keys c !! key
  = if decide (key ∈ keys) then
      match d !! key with
      | Some v => Some v
      | None => c !! key
      end
    else c !! key.
Proof.
  induction keys as [|k keys IH] using rev_ind; intros c key.
  - rewrite decide_False; [reflexivity|]. intros H. by apply elem_of_nil in H.
  - rewrite fold_left_app. simpl. unfold conf_merge at 1.
    destruct (decide (k = key)) as [->|Hne].
    + rewrite decide_True
        by (apply elem_of_app; right; apply list_elem_of_here).
      destruct (d !! key) as [v|] eqn:Ed.
      * by rewrite lookup_insert_eq.
      * rewrite IH, Ed. by case_decide.
    + assert (Hmem : key ∈ keys ++ [k] ↔ key ∈ keys).
      { rewrite elem_of_app, list_elem_of_singleton.
        split; [intros [H|H]; [done|congruence]|by left]. }
      assert (Hl : (match d !! k with
                    | Some v => <[k := v]> (fold_left (conf_merge d) keys c)
                    | None => fold_left (conf_merge d) keys c
                    end) !! key = fold_left (conf_merge d) keys c !! key).
      { destruct (d !! k); [by rewrite lookup_insert_ne|done]. }
      rewrite Hl, IH.
      destruct (decide (key ∈ keys)) as [Hin|Hin].
      * rewrite decide_True by (by apply Hmem). done.
      * rewrite decide_False; [done|]. intros H. by apply Hin, Hmem.
Qed.

Lemma set_pdb_configuration_dict_conf s d key :
  _pdb_conf (set_pdb_configuration s (ConfDict d)) !! key
  = if decide (key ∈ PDB_CONF_KEYS) then
      match d !! key with
      | Some v => Some v
      | None => _pdb_conf s !! key
      end
    else _pdb_conf s !! key.
Proof.
  unfold set_pdb_configuration.
  rewrite (set_pdb_configuration_dict_fold d PDB_CONF_KEYS s).
  apply lookup_fold_conf_merge.
Qed.

Lemma set_pdb_configuration_key_dict_session d s session key :
  pdb_session s = Some session →
  ∀ p, heap s !! session = Some (OPdb p) →
       heap (set_pdb_configuration_key (ConfDict d) s key) !! session =
       Some (OPdb match d !! key with
                  | Some v => pdb_setattr p key v
                  | None => p
                  end).
Proof.
  intros Hs p Hp. rewrite set_pdb_configuration_key_dict, Hs.
  destruct (d !! key) as [v|]; [|done]. simpl.
  unfold setattr. rewrite Hp. by rewrite lookup_insert_eq.
Qed.

Lemma set_pdb_configuration_dict_session d keys : ∀ s session,
  pdb_session s = Some session →
  carries (heap (fold_left (set_pdb_configuration_key (ConfDict d)) keys s))
    d keys session.
Proof.
  induction keys as [|k keys IH] using rev_ind; intros s session Hs.
  - destruct (pdb_session_is_pdb s session Hs) as [_ [p Hp]].
    exists p. split; [done|]. intros key v Hin. by apply elem_of_nil in Hin.
  - rewrite fold_left_app. simpl.
    destruct (IH s session Hs) as (p & Hp & Happ).
    destruct (set_pdb_configuration_fold_fields (ConfDict d) keys s)
      as (c1 & h1 & Hfold & Hk).
    set (s1 := fold_left (set_pdb_configuration_key (ConfDict d)) keys s) in *.
    assert (Hs1 : pdb_session s1 = Some session).
    { rewrite Hfold. by rewrite pdb_session_fields. }
    eexists. split.
    { by apply (set_pdb_configuration_key_dict_session d s1 session k Hs1). }
    intros key v Hin Hv. destruct (decide (k = key)) as [->|Hne].
    + rewrite Hv. simpl. by rewrite lookup_insert_eq.
    + assert (Hkeys : key ∈ keys).
      { apply elem_of_app in Hin as [Hin|Hin]; [done|].
        apply list_elem_of_singleton in Hin. congruence. }
      destruct (d !! k); simpl.
      * rewrite lookup_insert_ne by done. by apply Happ.
      * by apply Happ.
Qed.

Lemma set_pdb_configuration_dict_carries s d session :
  pdb_session s = Some session →
  carries (heap (set_pdb_configuration s (ConfDict d))) d PDB_CONF_KEYS
    session.
Proof.
  intros Hs. unfold set_pdb_configuration.
  exact (set_pdb_configuration_dict_session d PDB_CONF_KEYS s session Hs).
Qed.

(** X8: [set_pdb_configuration] called with a dictionary stores, for each
    key of [PDB_CONF_KEYS] that the dictionary holds, the dictionary's
    value, keeps what was persisted for the keys it does not hold, and
    ignores every key outside [PDB_CONF_KEYS]; the stack and the active
    session stay the same, and the active session, if any, receives each
    stored value as an attribute. *)
Theorem set_pdb_configuration_merge (s : SpyderShell) (d : dict) :
  let s' := set_pdb_configuration s (ConfDict d) in
  (∀ key, key ∈ PDB_CONF_KEYS →
          _pdb_conf s' !! key = match d !! key with
                                | Some v => Some v
                                | None => _pdb_conf s !! key
                                end)
  ∧ (∀ key, key ∉ PDB_CONF_KEYS → _pdb_conf s' !! key = _pdb_conf s !! key)
  ∧ _namespace_stack s' = _namespace_stack s
  ∧ pdb_session s' = pdb_session s
  ∧ ∀ session, pdb_session s = Some session →
               carries (heap s') d PDB_CONF_KEYS session.
Proof.
  cbv zeta. split; [|split; [|split; [|split]]].
  - intros key Hin. rewrite set_pdb_configuration_dict_conf.
    by rewrite decide_True.
  - intros key Hin. rewrite set_pdb_configuration_dict_conf.
    by rewrite decide_False.
  - destruct (set_pdb_configuration_fields s (ConfDict d)) as (c & h & -> & _).
    reflexivity.
  - destruct (set_pdb_configuration_fields s (ConfDict d))
      as (c & h & -> & Hk).
    by apply pdb_session_fields.
  - intros session Hs. by apply set_pdb_configuration_dict_carries.
Qed.

Lemma set_pdb_configuration_merge_witness :
  carries
    (heap (set_pdb_configuration shell_manager_then_pdb
             (ConfDict {["breakpoints" := VInt 9; "colors" := VStr "x"]})))
    {["breakpoints" := VInt 9; "colors" := VStr "x"]} PDB_CONF_KEYS 1
  ∧ _pdb_conf (set_pdb_configuration shell_manager_then_pdb
                 (ConfDict {["breakpoints" := VInt 9; "colors" := VStr "x"]}))
    !! "colors" = None.
Proof.
  pose proof (set_pdb_configuration_merge shell_manager_then_pdb
                {["breakpoints" := VInt 9; "colors" := VStr "x"]})
    as (_ & Hout & _ & _ & Hcar).
  split.
  - apply Hcar. reflexivity.
  - rewrite Hout; [reflexivity|].
    intros Hin. repeat (apply elem_of_cons in Hin as [Hin|Hin];
                        [discriminate Hin|]).
    by apply elem_of_nil in Hin.
Defined.

(** X9: a configuration set before a debugger session is pushed reaches
    that session: after [set_pdb_configuration] with a dictionary and then
    [add_pdb_session] of a debugger object that is not yet the active one,
    the pushed session is the active one and carries, for every key of
    [PDB_CONF_KEYS] that the dictionary holds, the dictionary's value. *)
Theorem set_pdb_configuration_then_push (s : SpyderShell) (d : dict)
    (pdb_obj : ref) :
  is_pdb (heap s) pdb_obj = true →
  pdb_session s ≠ Some pdb_obj →
  let s' := add_pdb_session (set_pdb_configuration s (ConfDict d)) pdb_obj in
  pdb_session s' = Some pdb_obj
  ∧ carries (heap s') d PDB_CONF_KEYS pdb_obj.
Proof.
  intros Hp Hne. cbv zeta.
  destruct (set_pdb_configuration_fields s (ConfDict d))
    as (c & h & Hs1 & Hk).
  pose proof (set_pdb_configuration_dict_conf s d) as Hconf.
  remember (set_pdb_configuration s (ConfDict d)) as s1 eqn:Es1.
  assert (Hsess1 : pdb_session s1 = pdb_session s).
  { rewrite Hs1. by apply pdb_session_fields. }
  assert (Hp1 : is_pdb (heap s1) pdb_obj = true).
  { rewrite Hs1. simpl. by rewrite Hk. }
  clear Es1 Hs1.
  rewrite add_pdb_session_push by (by rewrite Hsess1).
  apply is_pdb_true in Hp1 as [p1 Hp1].
  pose proof (pdb_session_push_pdb s1 pdb_obj p1 Hp1) as Hpush.
  remember (with_stack s1 (_namespace_stack s1 ++ [pdb_obj])) as s2 eqn:Es2.
  assert (Hc2 : _pdb_conf s2 = _pdb_conf s1) by (by subst s2).
  clear Es2.
  destruct (set_pdb_configuration_self s2 pdb_obj Hpush)
    as (_ & Hconf2 & Hsess2 & p' & Hp' & Happ).
  split; [exact Hsess2|]. exists p'. split; [exact Hp'|].
  intros key v Hin Hv. apply Happ; [done|].
  rewrite Hconf2, Hc2, Hconf. rewrite decide_True by done. by rewrite Hv.
Qed.

Lemma set_pdb_configuration_then_push_witness :
  carries
    (heap (add_pdb_session
             (set_pdb_configuration shell_empty
                (ConfDict {["pdb_stop_first_line" := VBool false]})) 3))
    {["pdb_stop_first_line" := VBool false]} PDB_CONF_KEYS 3.
Proof.
  apply (set_pdb_configuration_then_push shell_empty
           {["pdb_stop_first_line" := VBool false]} 3).
  - reflexivity.
  - vm_compute. discriminate.
Defined.

(** ** Pushing and popping in turn *)

Lemma with_stack_id s : with_stack s (_namespace_stack s) = s.
Proof. by destruct s. Qed.

(** X6: a namespace manager that is pushed and then removed leaves the shell
    exactly as it was, whatever the stack held before, and the removal
    neither raises nor logs. *)
Theorem namespace_manager_round_trip (s : SpyderShell) (ns_manager : ref) :
  remove_namespace_manager (add_namespace_manager s ns_manager) ns_manager
  = (Ok tt, s).
Proof.
  unfold remove_namespace_manager, add_namespace_manager. simpl.
  rewrite list_top_snoc, decide_True by done. rewrite list_pop_snoc.
  by destruct s.
Qed.

Lemma pdb_session_same s s' :
  _namespace_stack s' = _namespace_stack s →
  (∀ r, is_pdb (heap s') r = is_pdb (heap s) r) →
  pdb_session s' = pdb_session s.
Proof.
  intros Hst Hk. unfold pdb_session. rewrite Hst.
  by apply pdb_session_scan_ext.
Qed.

(** What [set_pdb_configuration(self._pdb_conf)] keeps, with or without an
    active session. *)
Lemma set_pdb_configuration_self_keeps s :
  _namespace_stack (set_pdb_configuration s ConfSelf) = _namespace_stack s
  ∧ _pdb_conf (set_pdb_configuration s ConfSelf) = _pdb_conf s
  ∧ ∀ r, is_pdb (heap (set_pdb_configuration s ConfSelf)) r
         = is_pdb (heap s) r.
Proof.
  destruct (pdb_session s) as [d|] eqn:Hs.
  - destruct (set_pdb_configuration_self s d Hs) as (Hst & Hconf & _ & _).
    split; [exact Hst|]. split; [exact Hconf|].
    destruct (set_pdb_configuration_fields s ConfSelf) as (c & h & -> & Hk).
    exact Hk.
  - by rewrite (set_pdb_configuration_self_idle s Hs).
Qed.

(** X7: a debugger object that is pushed with [add_pdb_session] and then
    removed with [remove_pdb_session] leaves the stack, the persisted
    configuration and the active session as they were before the push; the
    removal does not raise.  (The attributes of the sessions may have been
    reset to the persisted configuration on the way.) *)
Theorem pdb_session_round_trip (s : SpyderShell) (pdb_obj : ref) :
  is_pdb (heap s) pdb_obj = true →
  pdb_session s ≠ Some pdb_obj →
  ∃ s', remove_pdb_session (add_pdb_session s pdb_obj) pdb_obj = (Ok tt, s')
        ∧ _namespace_stack s' = _namespace_stack s
        ∧ _pdb_conf s' = _pdb_conf s
        ∧ pdb_session s' = pdb_session s
        ∧ ∀ r, is_pdb (heap s') r = is_pdb (heap s) r.
Proof.
  intros Hp Hne. rewrite (add_pdb_session_push s pdb_obj Hne).
  apply is_pdb_true in Hp as [p Hp].
  pose proof (pdb_session_push_pdb s pdb_obj p Hp) as Hpush.
  remember (with_stack s (_namespace_stack s ++ [pdb_obj])) as s0 eqn:Es0.
  assert (Hst0 : _namespace_stack s0 = _namespace_stack s ++ [pdb_obj])
    by (by subst s0).
  assert (Hc0 : _pdb_conf s0 = _pdb_conf s) by (by subst s0).
  assert (Hh0 : heap s0 = heap s) by (by subst s0).
  clear Es0.
  destruct (set_pdb_configuration_self s0 pdb_obj Hpush)
    as (Hst1 & Hc1 & Hs1 & _).
  destruct (set_pdb_configuration_self_keeps s0) as (_ & _ & Hk1).
  remember (set_pdb_configuration s0 ConfSelf) as s1 eqn:Es1. clear Es1.
  rewrite Hst0 in Hst1.
  rewrite (remove_pdb_session_current s1 (_namespace_stack s) pdb_obj pdb_obj
             Hst1 Hs1).
  remember (with_stack s1 (_namespace_stack s)) as s2 eqn:Es2.
  assert (Hst2 : _namespace_stack s2 = _namespace_stack s) by (by subst s2).
  assert (Hc2 : _pdb_conf s2 = _pdb_conf s) by (subst s2; simpl; congruence).
  assert (Hk2 : ∀ r, is_pdb (heap s2) r = is_pdb (heap s) r).
  { intros r. subst s2. simpl. by rewrite Hk1, Hh0. }
  clear Es2.
  destruct (set_pdb_configuration_self_keeps s2) as (Hst3 & Hc3 & Hk3).
  destruct (pdb_session s2) as [d2|] eqn:Hs2.
  - exists (set_pdb_configuration s2 ConfSelf). split; [reflexivity|].
    split; [congruence|]. split; [congruence|].
    assert (Hk : ∀ r, is_pdb (heap (set_pdb_configuration s2 ConfSelf)) r
                      = is_pdb (heap s) r).
    { intros r. by rewrite Hk3, Hk2. }
    split; [|exact Hk]. apply pdb_session_same; [congruence|exact Hk].
  - exists s2. split; [reflexivity|]. split; [exact Hst2|].
    split; [exact Hc2|]. split; [|exact Hk2].
    by apply pdb_session_same.
Qed.

Lemma pdb_session_round_trip_witness :
  ∃ s', remove_pdb_session (add_pdb_session shell_pdb_then_manager 3) 3
        = (Ok tt, s')
        ∧ _namespace_stack s' = [1; 2]
        ∧ pdb_session s' = Some 1.
Proof.
  destruct (pdb_session_round_trip shell_pdb_then_manager 3)
    as (s' & Hrun & Hst & _ & Hs & _).
  - reflexivity.
  - vm_compute. discriminate.
  - exists s'. split; [exact Hrun|]. split; [exact Hst|exact Hs].
Defined.

(** ** Interrupts and stop requests *)

Lemma sigint_handler_session_run s signum fr session p :
  _request_pdb_stop s = false →
  pdb_session s = Some session →
  heap s !! session = Some (OPdb p) →
  spyderkernel_sigint_handler signum fr s =
  if allow_kbdint p then (Raise KeyboardInterrupt, s)
  else if interrupting p then (Raise KeyboardInterrupt, s)
  else (Ok tt,
        record_call
          (with_heap s (<[session := OPdb (marked_interrupting p)]> (heap s)))
          (CallInterrupt session)).
Proof.
  intros Hflag Hs Hp. unfold spyderkernel_sigint_handler. rewrite Hflag, Hs.
  unfold bind, pdb_get, pdb_interrupt, raise, ret. rewrite Hp.
  destruct (allow_kbdint p); [reflexivity|]. rewrite Hp.
  destruct (interrupting p); [reflexivity|]. by rewrite Hp.
Qed.

Lemma is_pdb_insert_pdb h r p p' x :
  h !! r = Some (OPdb p) →
  is_pdb (<[r := OPdb p']> h) x = is_pdb h x.
Proof.
  intros Hp. unfold is_pdb. destruct (decide (r = x)) as [->|Hne].
  - by rewrite lookup_insert_eq, Hp.
  - by rewrite lookup_insert_ne.
Qed.

(** The state in which [interrupt()] leaves the shell. *)
Lemma marked_state s session p :
  pdb_session s = Some session →
  heap s !! session = Some (OPdb p) →
  let s' := record_call
              (with_heap s
                 (<[session := OPdb (marked_interrupting p)]> (heap s)))
              (CallInterrupt session) in
  pdb_session s' = Some session
  ∧ heap s' !! session = Some (OPdb (marked_interrupting p))
  ∧ _request_pdb_stop s' = _request_pdb_stop s.
Proof.
  intros Hs Hp. cbv zeta. split; [|split; [|reflexivity]].
  - rewrite <- Hs. apply pdb_session_same; [reflexivity|].
    intros r. simpl. by apply (is_pdb_insert_pdb _ _ p).
  - simpl. apply lookup_insert_eq.
Qed.

(** X11: while a debugger session is active and no stop is requested, the
    second of two deliveries of the signal in a row always raises
    [KeyboardInterrupt]: the session allowed it, or was interrupting
    already, or has been marked interrupting by the first delivery. *)
Theorem sigint_handler_second_delivery (s : SpyderShell) (signum signum2 : Z)
    (fr fr2 : option frame) (session : ref) :
  _request_pdb_stop s = false →
  pdb_session s = Some session →
  fst (spyderkernel_sigint_handler signum2 fr2
         (snd (spyderkernel_sigint_handler signum fr s)))
  = Raise KeyboardInterrupt.
Proof.
  intros Hflag Hs. destruct (pdb_session_is_pdb s session Hs) as [_ [p Hp]].
  rewrite (sigint_handler_session_run s signum fr session p Hflag Hs Hp).
  destruct (allow_kbdint p) eqn:Ea.
  { simpl.
    rewrite (sigint_handler_session_run s signum2 fr2 session p Hflag Hs Hp).
    by rewrite Ea. }
  destruct (interrupting p) eqn:Ei.
  { simpl.
    rewrite (sigint_handler_session_run s signum2 fr2 session p Hflag Hs Hp).
    by rewrite Ea, Ei. }
  destruct (marked_state s session p Hs Hp) as (Hs' & Hp' & Hf').
  cbn [snd].
  rewrite (sigint_handler_session_run _ signum2 fr2 session _
             (eq_trans Hf' Hflag) Hs' Hp').
  simpl. by rewrite Ea.
Qed.

Lemma sigint_handler_second_delivery_witness :
  fst (spyderkernel_sigint_handler 2 None
         (snd (spyderkernel_sigint_handler 2 (Some sample_frame)
                 shell_pdb_then_manager)))
  = Raise KeyboardInterrupt.
Proof.
  apply (sigint_handler_second_delivery shell_pdb_then_manager 2 2
           (Some sample_frame) None 1); reflexivity.
Defined.

Lemma request_pdb_stop_session_run current s session p :
  pdb_session s = Some session →
  heap s !! session = Some (OPdb p) →
  request_pdb_stop current s =
  if interrupting p then (Ok false, s)
  else (Ok false,
        record_call
          (with_heap s (<[session := OPdb (marked_interrupting p)]> (heap s)))
          (CallInterrupt session)).
Proof.
  intros Hs Hp. unfold request_pdb_stop. rewrite Hs.
  unfold bind, pdb_get, pdb_interrupt, ret. rewrite Hp.
  destruct (interrupting p); [reflexivity|]. by rewrite Hp.
Qed.

Lemma sigint_handler_request_enters s signum fr :
  _request_pdb_stop s = true →
  ∃ s', spyderkernel_sigint_handler signum fr s = (Ok tt, s')
        ∧ _request_pdb_stop s' = false
        ∧ sessions_created s' = sessions_created s + 1.
Proof.
  intros Hflag. rewrite (sigint_handler_request_run s signum fr Hflag).
  eexists. split; [reflexivity|]. split; [reflexivity|].
  unfold sessions_created. cbn [calls].
  rewrite List.filter_app, length_app. simpl. lia.
Qed.

(** X13: with an active debugger session, [request_pdb_stop] never asks
    for a signal and never writes the request flag: it leaves the session
    interrupting, calling [interrupt()] only if it was not so already, and
    a second request then changes nothing.  What a signal delivered after
    the request does depends on the request flag, which the request has
    left as it was: when the flag is not set the handler raises
    [KeyboardInterrupt]; when a request made earlier, before the session
    was pushed, has left the flag set, the handler clears it, constructs a
    new debugger session and returns. *)
Theorem request_pdb_stop_session (s : SpyderShell)
    (current current2 : sigint_handler) (signum : Z) (fr : option frame)
    (session : ref) :
  pdb_session s = Some session →
  ∃ s' p',
    request_pdb_stop current s = (Ok false, s')
    ∧ _request_pdb_stop s' = _request_pdb_stop s
    ∧ _namespace_stack s' = _namespace_stack s
    ∧ heap s' !! session = Some (OPdb p') ∧ interrupting p' = true
    ∧ request_pdb_stop current2 s' = (Ok false, s')
    ∧ (_request_pdb_stop s = false →
       spyderkernel_sigint_handler signum fr s'
       = (Raise KeyboardInterrupt, s'))
    ∧ (_request_pdb_stop s = true →
       ∃ s'', spyderkernel_sigint_handler signum fr s' = (Ok tt, s'')
              ∧ _request_pdb_stop s'' = false
              ∧ sessions_created s'' = sessions_created s' + 1).
Proof.
  intros Hs. destruct (pdb_session_is_pdb s session Hs) as [_ [p Hp]].
  rewrite (request_pdb_stop_session_run current s session p Hs Hp).
  destruct (interrupting p) eqn:Ei.
  - exists s, p. split; [reflexivity|]. split; [reflexivity|].
    split; [reflexivity|]. split; [exact Hp|]. split; [exact Ei|].
    split; [|split].
    + rewrite (request_pdb_stop_session_run current2 s session p Hs Hp).
      by rewrite Ei.
    + intros Hflag.
      rewrite (sigint_handler_session_run s signum fr session p Hflag Hs Hp).
      rewrite Ei. by destruct (allow_kbdint p).
    + intros Hflag. by apply sigint_handler_request_enters.
  - destruct (marked_state s session p Hs Hp) as (Hs' & Hp' & Hf').
    eexists. exists (marked_interrupting p). split; [reflexivity|].
    split; [exact Hf'|]. split; [reflexivity|]. split; [exact Hp'|].
    split; [reflexivity|]. split; [|split].
    + by rewrite (request_pdb_stop_session_run current2 _ session _ Hs' Hp').
    + intros Hflag.
      rewrite (sigint_handler_session_run _ signum fr session _
                 (eq_trans Hf' Hflag) Hs' Hp').
      simpl. by destruct (allow_kbdint p).
    + intros Hflag. apply sigint_handler_request_enters.
      exact (eq_trans Hf' Hflag).
Qed.

Lemma request_pdb_stop_session_witness :
  ∃ s' p',
    request_pdb_stop SpyderHandler shell_pdb_then_manager = (Ok false, s')
    ∧ heap s' !! 1 = Some (OPdb p') ∧ interrupting p' = true
    ∧ request_pdb_stop SpyderHandler s' = (Ok false, s').
Proof.
  destruct (request_pdb_stop_session shell_pdb_then_manager SpyderHandler
              SpyderHandler 2 None 1)
    as (s' & p' & Hrun & _ & _ & Hp' & Hi & Hagain & _).
  - reflexivity.
  - exists s', p'. split; [exact Hrun|]. split; [exact Hp'|].
    split; [exact Hi|exact Hagain].
Defined.

(** X14: without a debugger session, [request_pdb_stop] asks for the
    signal only when the shell's own handler is installed, having set the
    request flag; the delivery of that signal then clears the flag,
    constructs one debugger session attached to the interrupted frame and
    returns, whether or not [_allow_kbdint] is set.  When another handler
    is installed, the request only logs a message: the flag is not set and
    no signal is asked for. *)
Theorem request_pdb_stop_idle (s : SpyderShell) (signum : Z)
    (fr : option frame) (repr : string) :
  pdb_session s = None →
  request_pdb_stop SpyderHandler s = (Ok true, with_request_pdb_stop s true)
  ∧ (∃ s', spyderkernel_sigint_handler signum fr
             (with_request_pdb_stop s true) = (Ok tt, s')
           ∧ _request_pdb_stop s' = false
           ∧ sessions_created s' = sessions_created s + 1
           ∧ calls s'
             = calls s ++ [CallSpyderPdb (fresh (dom (heap s)));
                           CallInterrupt (fresh (dom (heap s)));
                           CallSetTrace (fresh (dom (heap s))) fr])
  ∧ request_pdb_stop (OtherHandler repr) s
    = (Ok false, logger_debug s (request_pdb_stop_msg +:+ repr)).
Proof.
  intros Hs. unfold request_pdb_stop. rewrite Hs.
  split; [reflexivity|]. split; [|reflexivity].
  rewrite (sigint_handler_request_run (with_request_pdb_stop s true)
             signum fr eq_refl).
  eexists. split; [reflexivity|]. split; [reflexivity|].
  split; [|reflexivity].
  unfold sessions_created. cbn [calls with_request_pdb_stop].
  rewrite List.filter_app, length_app. simpl. lia.
Qed.

Lemma request_pdb_stop_idle_witness :
  request_pdb_stop SpyderHandler (with_allow_kbdint shell_empty true)
  = (Ok true,
     with_request_pdb_stop (with_allow_kbdint shell_empty true) true).
Proof.
  apply (request_pdb_stop_idle (with_allow_kbdint shell_empty true) 2 None
           EmptyString).
  reflexivity.
Defined.

(** ** A line of input for the debugger *)

Lemma conf_key_not_input key :
  key ∈ PDB_CONF_KEYS →
  key ≠ "_cmd_input_line" ∧ key ≠ "_disable_next_stack_entry".
Proof.
  intros Hin. unfold PDB_CONF_KEYS in Hin.
  repeat (apply elem_of_cons in Hin as [->|Hin]; [split; discriminate|]).
  by apply elem_of_nil in Hin.
Qed.

(** X15: [pdb_input_reply] hands the line and the echo switch to the
    top-most debugger session and to no other object, asks for the event
    loop to be interrupted, and leaves the stack, the persisted
    configuration and every configuration attribute of the session as they
    were; without a debugger session the line is dropped and nothing
    happens. *)
Theorem pdb_input_reply_delivers (s : SpyderShell) (line : string)
    (echo_stack_entry : bool) :
  (pdb_session s = None →
   pdb_input_reply line echo_stack_entry s = (Ok false, s))
  ∧ (∀ debugger p,
       pdb_session s = Some debugger →
       heap s !! debugger = Some (OPdb p) →
       ∃ s' p',
         pdb_input_reply line echo_stack_entry s = (Ok true, s')
         ∧ heap s' !! debugger = Some (OPdb p')
         ∧ attrs p' !! "_cmd_input_line" = Some (VStr line)
         ∧ attrs p' !! "_disable_next_stack_entry"
           = Some (VBool (negb echo_stack_entry))
         ∧ (∀ key, key ∈ PDB_CONF_KEYS → attrs p' !! key = attrs p !! key)
         ∧ (∀ r, r ≠ debugger → heap s' !! r = heap s !! r)
         ∧ _namespace_stack s' = _namespace_stack s
         ∧ _pdb_conf s' = _pdb_conf s
         ∧ pdb_session s' = Some debugger).
Proof.
  unfold pdb_input_reply. split.
  - intros Hs. by rewrite Hs.
  - intros debugger p Hs Hp. rewrite Hs.
    unfold setattr at 2. rewrite Hp.
    unfold setattr. rewrite lookup_insert_eq, insert_insert_eq.
    eexists. eexists. split; [reflexivity|].
    split; [simpl; apply lookup_insert_eq|].
    split; [simpl; apply lookup_insert_eq|].
    split.
    { simpl. rewrite lookup_insert_ne by discriminate.
      apply lookup_insert_eq. }
    split.
    { intros key Hin. destruct (conf_key_not_input key Hin) as [H1 H2].
      simpl. by rewrite !lookup_insert_ne. }
    split.
    { intros r Hne. simpl. by rewrite lookup_insert_ne. }
    split; [reflexivity|]. split; [reflexivity|].
    rewrite <- Hs. apply pdb_session_same; [reflexivity|].
    intros r. simpl. by apply (is_pdb_insert_pdb _ _ p).
Qed.

Lemma pdb_input_reply_delivers_witness :
  pdb_input_reply "next" true shell_empty = (Ok false, shell_empty)
  ∧ ∃ s' p',
      pdb_input_reply "next" false shell_pdb_then_manager = (Ok true, s')
      ∧ heap s' !! 1 = Some (OPdb p')
      ∧ attrs p' !! "_cmd_input_line" = Some (VStr "next").
Proof.
  split.
  - apply (proj1 (pdb_input_reply_delivers shell_empty "next" true)).
    reflexivity.
  - destruct (proj2 (pdb_input_reply_delivers shell_pdb_then_manager
                       "next" false) 1
                (mkPdb (Some sample_frame) (Some 11) false false ∅))
      as (s' & p' & Hrun & Hp' & Hline & _); [reflexivity|reflexivity|].
    exists s', p'. split; [exact Hrun|]. split; [exact Hp'|exact Hline].
Defined.

(** ** The namespace of a name *)

Lemma _get_reference_namespace_state name s :
  snd (_get_reference_namespace name s) = s.
Proof.
  unfold _get_reference_namespace, bind, get_context_locals. simpl.
  destruct (truthy (heap s) (context_locals s None)); [|reflexivity].
  destruct (context_locals s None) as [r|]; [|reflexivity].
  unfold read_dict. destruct (heap s !! r) as [[p|m|d|]|]; try reflexivity.
  by destruct (dict_contains d name).
Qed.

(** X16: [_get_reference_namespace] changes nothing.  When [user_ns] and
    the context locals are dictionaries, it returns the context locals if
    they bind the name and [user_ns] otherwise; and whenever the name is
    bound in either, the returned namespace binds it to the value that the
    copy made by [_get_current_namespace] (locals laid over globals) shows
    for it. *)
Theorem _get_reference_namespace_spec (s : SpyderShell) (name : string)
    (u l : dict) :
  heap s !! user_ns s = Some (ODict u) →
  context_locals_content s l →
  ∃ r d,
    _get_reference_namespace name s = (Ok r, s)
    ∧ heap s !! r = Some (ODict d)
    ∧ (is_Some (l !! name) → context_locals s None = Some r)
    ∧ (l !! name = None → r = user_ns s)
    ∧ d !! name = (l ∪ u) !! name.
Proof.
  intros Hu Hl. unfold context_locals_content in Hl.
  unfold _get_reference_namespace, bind, get_context_locals, get_user_ns.
  simpl. destruct (context_locals s None) as [lr|] eqn:Ecl.
  - simpl. rewrite Hl. case_bool_decide as He; simpl.
    + subst l. exists (user_ns s), u. split; [reflexivity|].
      split; [exact Hu|]. split.
      { intros [v Hv]. by rewrite lookup_empty in Hv. }
      split; [done|]. by rewrite (left_id_L ∅ (∪) u).
    + unfold read_dict. rewrite Hl. unfold dict_contains.
      case_bool_decide as Hn; simpl.
      * exists lr, l. split; [reflexivity|]. split; [exact Hl|].
        split; [done|]. split.
        { intros Hnone. rewrite Hnone in Hn. by destruct Hn. }
        destruct Hn as [v Hv]. rewrite Hv. symmetry.
        by apply lookup_union_Some_l.
      * exists (user_ns s), u. split; [reflexivity|]. split; [exact Hu|].
        split; [done|]. split; [done|].
        assert (Hnone : l !! name = None).
        { destruct (l !! name) eqn:E; [|done]. exfalso. apply Hn. eauto. }
        by rewrite lookup_union_r.
  - subst l. simpl. exists (user_ns s), u. split; [reflexivity|].
    split; [exact Hu|]. split.
    { intros [v Hv]. by rewrite lookup_empty in Hv. }
    split; [done|]. by rewrite (left_id_L ∅ (∪) u).
Qed.

Lemma _get_reference_namespace_spec_witness :
  ∃ r d,
    _get_reference_namespace "x" shell_manager_then_pdb
    = (Ok r, shell_manager_then_pdb)
    ∧ heap shell_manager_then_pdb !! r = Some (ODict d)
    ∧ d !! "x" = Some (VInt 5).
Proof.
  destruct (_get_reference_namespace_spec shell_manager_then_pdb "x"
              {["x" := VInt 1; "y" := VInt 2]} {["x" := VInt 5]})
    as (r & d & Hrun & Hd & _ & _ & Hx).
  - reflexivity.
  - reflexivity.
  - exists r, d. split; [exact Hrun|]. split; [exact Hd|].
    rewrite Hx. reflexivity.
Defined.

(** ** What every call keeps *)

Lemma sigint_handler_keeps s signum fr :
  _pdb_conf (snd (spyderkernel_sigint_handler signum fr s)) = _pdb_conf s.
Proof.
  destruct (_request_pdb_stop s) eqn:Hflag.
  - by rewrite (sigint_handler_request_run s signum fr Hflag).
  - destruct (pdb_session s) as [session|] eqn:Hs.
    + destruct (pdb_session_is_pdb s session Hs) as [_ [p Hp]].
      rewrite (sigint_handler_session_run s signum fr session p Hflag Hs Hp).
      by destruct (allow_kbdint p), (interrupting p).
    + unfold spyderkernel_sigint_handler. rewrite Hflag, Hs.
      by destruct (_allow_kbdint s).
Qed.

Lemma request_pdb_stop_keeps current s :
  _pdb_conf (snd (request_pdb_stop current s)) = _pdb_conf s
  ∧ _allow_kbdint (snd (request_pdb_stop current s)) = _allow_kbdint s.
Proof.
  destruct (pdb_session s) as [session|] eqn:Hs.
  - destruct (pdb_session_is_pdb s session Hs) as [_ [p Hp]].
    rewrite (request_pdb_stop_session_run current s session p Hs Hp).
    by destruct (interrupting p).
  - unfold request_pdb_stop. rewrite Hs. by destruct current.
Qed.

Lemma _get_current_namespace_keeps with_magics fr s :
  _pdb_conf (snd (_get_current_namespace with_magics fr s)) = _pdb_conf s
  ∧ _allow_kbdint (snd (_get_current_namespace with_magics fr s))
    = _allow_kbdint s.
Proof.
  pose proof (_get_current_namespace_outcome with_magics fr s) as Hout.
  destruct (_get_current_namespace with_magics fr s) as [[ns|e] s'];
    simpl in *.
  - by destruct Hout as (_ & d & ->).
  - by destruct Hout as [->|(ns & d & _ & ->)].
Qed.

Lemma apply_op_keeps s o :
  (conf_keys_known s → conf_keys_known (apply_op s o))
  ∧ _allow_kbdint (apply_op s o) = _allow_kbdint s.
Proof.
  unfold conf_keys_known.
  destruct o as [r|r|r|r|d|signum fr|current|line echo|wm fr|name]; simpl.
  - destruct (allow_kbdint_kept s 0 None r) as (_ & Hf & _). split; [|done].
    unfold add_pdb_session. case_decide; [done|].
    destruct (set_pdb_configuration_self_keeps
                (with_stack s (_namespace_stack s ++ [r]))) as (_ & -> & _).
    done.
  - destruct (allow_kbdint_kept s 0 None r) as (_ & _ & Hf & _).
    split; [|done].
    unfold remove_pdb_session. case_decide; [|done].
    destruct (list_pop (_namespace_stack s)) as [[st x]|e]; [|done].
    destruct (pdb_session (with_stack s st)); [|done]. simpl.
    destruct (set_pdb_configuration_self_keeps (with_stack s st))
      as (_ & -> & _).
    done.
  - done.
  - destruct (allow_kbdint_kept s 0 None r) as (_ & _ & _ & _ & Hf).
    split; [|done].
    unfold remove_namespace_manager.
    destruct (list_top (_namespace_stack s)) as [top|e]; [|done].
    case_decide; [|done].
    by destruct (list_pop (_namespace_stack s)) as [[st x]|e].
  - split; [|apply set_pdb_configuration_allow_kbdint].
    intros Hknown key. rewrite set_pdb_configuration_dict_conf.
    case_decide as Hin; [done|]. apply Hknown.
  - destruct (allow_kbdint_kept s signum fr 0) as (Hf & _). split; [|done].
    by rewrite sigint_handler_keeps.
  - destruct (request_pdb_stop_keeps current s) as [-> ->]. done.
  - unfold pdb_input_reply. by destruct (pdb_session s).
  - destruct (_get_current_namespace_keeps wm fr s) as [-> ->]. done.
  - by rewrite _get_reference_namespace_state.
Qed.

(** X10: from the state that [__init__] sets up, whatever methods are
    called afterwards and in whatever order, the persisted configuration
    only ever holds keys of [PDB_CONF_KEYS], and [_allow_kbdint] stays
    false: outside [run_code] a signal that finds neither a stop request
    nor a debugger session is swallowed. *)
Theorem shell_invariants (h : gmap ref obj) (u : ref)
    (line_magics cell_magics : dict) (ops : list op) :
  let s := run_ops (startup h u line_magics cell_magics) ops in
  conf_keys_known s
  ∧ _allow_kbdint s = false
  ∧ ∀ signum fr,
      _request_pdb_stop s = false → pdb_session s = None →
      spyderkernel_sigint_handler signum fr s = (Ok tt, s).
Proof.
  cbv zeta. unfold run_ops.
  assert (Hinv : conf_keys_known
                   (fold_left apply_op ops
                      (startup h u line_magics cell_magics))
                 ∧ _allow_kbdint
                     (fold_left apply_op ops
                        (startup h u line_magics cell_magics)) = false).
  { induction ops as [|o ops IH] using rev_ind.
    - split; [|reflexivity]. intros key [v Hv]. simpl in Hv.
      by rewrite lookup_empty in Hv.
    - rewrite fold_left_app. simpl. destruct IH as [Hk Hf].
      destruct (apply_op_keeps
                  (fold_left apply_op ops
                     (startup h u line_magics cell_magics)) o) as [Hk' Hf'].
      split; [by apply Hk'|]. by rewrite Hf'. }
  destruct Hinv as [Hk Hf]. split; [exact Hk|]. split; [exact Hf|].
  intros signum fr Hflag Hs. unfold spyderkernel_sigint_handler.
  by rewrite Hflag, Hs, Hf.
Qed.

Lemma shell_invariants_witness :
  spyderkernel_sigint_handler 2 None
    (run_ops (startup sample_heap 30 ∅ ∅)
       [OpSetConf {["breakpoints" := VInt 7]}; OpAddNsm 2; OpRemoveNsm 2])
  = (Ok tt,
     run_ops (startup sample_heap 30 ∅ ∅)
       [OpSetConf {["breakpoints" := VInt 7]}; OpAddNsm 2; OpRemoveNsm 2]).
Proof.
  apply (shell_invariants sample_heap 30 ∅ ∅
           [OpSetConf {["breakpoints" := VInt 7]}; OpAddNsm 2; OpRemoveNsm 2]).
  - reflexivity.
  - vm_compute. reflexivity.
Defined.

(** ** Cleaning and filtering again *)

Lemma _do_input_cleanup_cases lines :
  (_do_input_cleanup lines = lines
   ∧ ∀ line, line ∈ lines → is_pkg_manager_call line = false)
  ∨ _do_input_cleanup lines = [warning_line].
Proof.
  unfold _do_input_cleanup.
  destruct (existsb is_pkg_manager_call lines) eqn:E.
  - right. apply existsb_exists in E as (line & Hin & Hcall).
    apply (_do_input_cleanup_loop_found lines lines line); [|done].
    by apply list_elem_of_In.
  - left. assert (Hno : ∀ line, line ∈ lines →
                                is_pkg_manager_call line = false).
    { intros line Hin. destruct (is_pkg_manager_call line) eqn:Ec; [|done].
      assert (existsb is_pkg_manager_call lines = true) as Ht.
      { apply existsb_exists. exists line.
        split; [by apply list_elem_of_In|done]. }
      congruence. }
    split; [by apply _do_input_cleanup_loop_clean|done].
Qed.

(** X17: no call of a package manager gets through [_do_input_cleanup]: no
    line of its result starts with a prefix followed by the name of a
    disabled package manager.  Cleaning a second time changes nothing. *)
Theorem _do_input_cleanup_safe (lines : list string) :
  (∀ line, line ∈ _do_input_cleanup lines → ¬ disallowed_call line)
  ∧ _do_input_cleanup (_do_input_cleanup lines) = _do_input_cleanup lines.
Proof.
  assert (Hw : is_pkg_manager_call warning_line = false)
    by (vm_compute; reflexivity).
  destruct (_do_input_cleanup_cases lines) as [[Heq Hno]|Heq]; rewrite Heq.
  - split; [|exact Heq].
    intros line Hin Hcall. apply is_pkg_manager_call_spec in Hcall.
    rewrite (Hno line Hin) in Hcall. discriminate.
  - split.
    + intros line Hin Hcall. apply list_elem_of_singleton in Hin as ->.
      apply is_pkg_manager_call_spec in Hcall. congruence.
    + unfold _do_input_cleanup. cbn [_do_input_cleanup_loop].
      by rewrite Hw.
Qed.

Lemma _do_input_cleanup_safe_witness :
  ¬ disallowed_call warning_line.
Proof.
  apply (proj1 (_do_input_cleanup_safe ["!uv add x"]) warning_line).
  vm_compute. apply list_elem_of_here.
Defined.

Lemma _showtraceback_loop_filter locations stb :
  _showtraceback_loop locations [] stb
  = List.filter (fun line => negb (skipped locations line)) stb.
Proof.
  induction stb as [|line stb IH]; [reflexivity|]. simpl.
  destruct (skipped locations line); simpl; [exact IH|].
  rewrite _showtraceback_loop_app, IH. reflexivity.
Qed.

(** X18: for an exception other than [BdbQuit], the filter of
    [_showtraceback] works line by line: the filtered traceback of two
    tracebacks put end to end is the two filtered tracebacks put end to
    end, filtering a filtered traceback changes nothing, its lines are
    the lines of the input that are not internal file-location lines, and
    without installation paths nothing is removed. *)
Theorem _showtraceback_linewise (locations : list string) (name : string)
    (stb stb' : list string) :
  _showtraceback locations (OtherException name) (stb ++ stb')
  = _showtraceback locations (OtherException name) stb
    ++ _showtraceback locations (OtherException name) stb'
  ∧ _showtraceback locations (OtherException name)
      (_showtraceback locations (OtherException name) stb)
    = _showtraceback locations (OtherException name) stb
  ∧ (∀ line, line ∈ _showtraceback locations (OtherException name) stb ↔
             line ∈ stb ∧ ¬ internal_file_line locations line)
  ∧ _showtraceback [] (OtherException name) stb = stb.
Proof.
  unfold _showtraceback. rewrite !_showtraceback_loop_filter.
  split; [apply List.filter_app|]. split; [|split].
  - induction stb as [|line stb IH]; [reflexivity|]. simpl.
    destruct (skipped locations line) eqn:E; simpl; [exact IH|].
    rewrite E. simpl. by rewrite IH.
  - intros line. rewrite list_elem_of_In, filter_In, <- list_elem_of_In.
    rewrite negb_true_iff, <- skipped_spec.
    split; intros [Hin Hs]; (split; [done|]).
    + by rewrite Hs.
    + by destruct (skipped locations line).
  - induction stb as [|line stb IH]; [reflexivity|]. simpl.
    unfold skipped at 1. simpl. rewrite andb_false_r. simpl.
    by rewrite IH.
Qed.

Lemma _showtraceback_linewise_witness :
  "File /home/user/script.py"
  ∈ _showtraceback (_package_locations "/") (OtherException "KeyError")
      [ "File /usr/lib/site-packages/spyder_kernels/console/shell.py";
        "File /home/user/script.py" ].
Proof.
  apply (proj1 (proj2 (proj2 (_showtraceback_linewise
                                (_package_locations "/") "KeyError"
                                [ "File /usr/lib/site-packages/spyder_kernels/console/shell.py";
                                  "File /home/user/script.py" ] [])))).
  split.
  - apply list_elem_of_further, list_elem_of_here.
  - intros H. apply skipped_spec in H. vm_compute in H. discriminate H.
Defined.

(** ** Only the top of the stack is ever touched *)

Lemma list_pop_Ok {A : Type} (l st : list A) (x : A) :
  list_pop l = Ok (st, x) → l = st ++ [x].
Proof.
  unfold list_pop. destruct (rev l) as [|y r] eqn:E; [discriminate|].
  intros [= <- <-]. rewrite <- (rev_involutive l), E. reflexivity.
Qed.

Lemma list_top_Ok {A : Type} (l st : list A) (x top : A) :
  l = st ++ [x] → list_top l = Ok top → top = x.
Proof. intros ->. rewrite list_top_snoc. by intros [= ->]. Qed.

Lemma _get_current_namespace_stack with_magics fr s :
  _namespace_stack (snd (_get_current_namespace with_magics fr s))
  = _namespace_stack s.
Proof.
  pose proof (_get_current_namespace_outcome with_magics fr s) as Hout.
  destruct (_get_current_namespace with_magics fr s) as [[ns|e] s'];
    simpl in *.
  - by destruct Hout as (_ & d & ->).
  - by destruct Hout as [->|(ns & d & _ & ->)].
Qed.

(** X12: the methods that push and pop touch the stack at its top only.
    [add_pdb_session] leaves the stack as it is or appends the object it
    was given, and [add_namespace_manager] appends it; [remove_pdb_session]
    leaves the stack as it is or removes its last entry, and
    [remove_namespace_manager] leaves it as it is or removes its last
    entry, which is then the object it was given.  Setting the
    configuration and the two namespace readers never change the stack. *)
Theorem stack_changes_at_top (s : SpyderShell) (r : ref)
    (pdb_conf : conf_arg) (with_magics : bool) (fr : option frame)
    (name : string) :
  let st := _namespace_stack s in
  (_namespace_stack (add_pdb_session s r) = st
   ∨ _namespace_stack (add_pdb_session s r) = st ++ [r])
  ∧ _namespace_stack (add_namespace_manager s r) = st ++ [r]
  ∧ (_namespace_stack (snd (remove_pdb_session s r)) = st
     ∨ ∃ x, st = _namespace_stack (snd (remove_pdb_session s r)) ++ [x])
  ∧ (_namespace_stack (snd (remove_namespace_manager s r)) = st
     ∨ st = _namespace_stack (snd (remove_namespace_manager s r)) ++ [r])
  ∧ _namespace_stack (set_pdb_configuration s pdb_conf) = st
  ∧ _namespace_stack (snd (_get_current_namespace with_magics fr s)) = st
  ∧ _namespace_stack (snd (_get_reference_namespace name s)) = st.
Proof.
  cbv zeta. split; [|split; [|split; [|split; [|split; [|split]]]]].
  - unfold add_pdb_session. case_decide; [by left|]. right.
    by destruct (set_pdb_configuration_self_keeps
                   (with_stack s (_namespace_stack s ++ [r]))) as (-> & _).
  - reflexivity.
  - unfold remove_pdb_session. case_decide; [|by left].
    destruct (list_pop (_namespace_stack s)) as [[st x]|e] eqn:E; [|by left].
    apply list_pop_Ok in E. right. exists x.
    destruct (pdb_session (with_stack s st)); [|done]. simpl.
    by destruct (set_pdb_configuration_self_keeps (with_stack s st))
      as (-> & _).
  - unfold remove_namespace_manager.
    destruct (list_top (_namespace_stack s)) as [top|e] eqn:Et; [|by left].
    case_decide as Htop; [|by left].
    destruct (list_pop (_namespace_stack s)) as [[st x]|e] eqn:E; [|by left].
    apply list_pop_Ok in E. right. simpl.
    rewrite (list_top_Ok _ st x top E Et) in Htop. by subst x.
  - by destruct (set_pdb_configuration_fields s pdb_conf)
      as (c & h & -> & _).
  - apply _get_current_namespace_stack.
  - by rewrite _get_reference_namespace_state.
Qed.

(** ** Shadowing in the copy of the namespace *)

(** X19: in the copy that [_get_current_namespace] makes without a frame, a
    name shows the value of the innermost namespace that binds it: with
    the magics asked for, a cell magic hides a line magic, which hides a
    context local, which hides a global of [user_ns]; without them, a
    context local hides a global. *)
Theorem _get_current_namespace_shadowing (with_magics : bool)
    (s : SpyderShell) (u l : dict) (name : string) :
  heap s !! user_ns s = Some (ODict u) →
  context_locals_content s l →
  ∃ ns s' d,
    _get_current_namespace with_magics None s = (Ok ns, s')
    ∧ heap s' !! ns = Some (ODict d)
    ∧ d !! name =
      if with_magics then
        match magics_cell s !! name, magics_line s !! name, l !! name with
        | Some v, _, _ => Some v
        | None, Some v, _ => Some v
        | None, None, Some v => Some v
        | None, None, None => u !! name
        end
      else
        match l !! name with
        | Some v => Some v
        | None => u !! name
        end.
Proof.
  intros Hu Hl. pose proof (fresh_ref_unused (heap s)) as Hns.
  rewrite (_get_current_namespace_no_frame with_magics s u l Hu Hl).
  do 3 eexists. split; [reflexivity|].
  split; [exact (proj1 (proj2 (with_new_heap s _ _ Hns)))|].
  assert (Hlu : (l ∪ u) !! name = match l !! name with
                                  | Some v => Some v
                                  | None => u !! name
                                  end).
  { destruct (l !! name) as [v|] eqn:E.
    - by apply lookup_union_Some_l.
    - by rewrite lookup_union_r. }
  destruct with_magics; [|exact Hlu].
  destruct (magics_cell s !! name) as [vc|] eqn:Ec.
  { by apply lookup_union_Some_l. }
  rewrite lookup_union_r by done.
  destruct (magics_line s !! name) as [vl|] eqn:El.
  { by apply lookup_union_Some_l. }
  rewrite lookup_union_r by done. exact Hlu.
Qed.

Lemma _get_current_namespace_shadowing_witness :
  ∃ ns s' d,
    _get_current_namespace false None shell_manager_then_pdb = (Ok ns, s')
    ∧ heap s' !! ns = Some (ODict d)
    ∧ d !! "x" = Some (VInt 5).
Proof.
  destruct (_get_current_namespace_shadowing false shell_manager_then_pdb
              {["x" := VInt 1; "y" := VInt 2]} {["x" := VInt 5]} "x")
    as (ns & s' & d & Hrun & Hd & Hx); [reflexivity|reflexivity|].
  exists ns, s', d. split; [exact Hrun|]. split; [exact Hd|]. exact Hx.
Defined.
